(** * Student Database Management System: a shallow embedding of [main.py]

    The development follows the layout of the program: text and number
    values, the validation functions, the [students] table with its CRUD
    functions, the performance classifier, and the branches of the
    Streamlit menu that call them. *)

From Stdlib Require Import List ZArith NArith QArith Qabs Bool String Ascii Lia.
From Stdlib Require Import Permutation Sorted.
Import ListNotations.

(* ================================================================== *)
(** * Values                                                           *)
(* ================================================================== *)

(** A Python [str] is a sequence of Unicode code points. *)
Definition char := N.
Definition str := list char.

Definition chr (a : ascii) : char := N_of_ascii a.

(** A string literal of the source, as a [str]. *)
Definition py (s : string) : str := map chr (list_ascii_of_string s).

(** A Python [float], up to what comparisons can see: a finite value (both
    zeros are the rational [0]), an infinity, or a NaN. *)
Inductive pyfloat :=
| Finite (q : Q)
| PosInf
| NegInf
| NaN.

(** [a <= b] on floats; every comparison with a NaN is false. *)
Definition fle (a b : pyfloat) : bool :=
  match a, b with
  | NaN, _ => false
  | _, NaN => false
  | NegInf, _ => true
  | _, PosInf => true
  | Finite x, Finite y => Qle_bool x y
  | _, _ => false
  end.

(** [a >= b] is [b <= a]. *)
Definition fge (a b : pyfloat) : bool := fle b a.

(** [a == b] on floats. *)
Definition feq (a b : pyfloat) : bool :=
  match a, b with
  | Finite x, Finite y => Qeq_bool x y
  | PosInf, PosInf => true
  | NegInf, NegInf => true
  | _, _ => false
  end.

(** The float of a Python [int]. *)
Definition float_of_Z (z : Z) : pyfloat := Finite (inject_Z z).

(* ================================================================== *)
(** * Regular expressions                                              *)
(* ================================================================== *)

(** The fragment of [re] syntax the program uses: character classes,
    sequencing, alternation and repetition. *)
Inductive regex :=
| Never
| Empty
| Class (p : char -> bool)
| Seq (r1 r2 : regex)
| Alt (r1 r2 : regex)
| Star (r : regex).

(** [r+] *)
Definition plus (r : regex) : regex := Seq r (Star r).

(** [r{2,}] *)
Definition at_least_two (r : regex) : regex := Seq r (Seq r (Star r)).

(** The strings a regular expression matches in full. *)
Inductive Lang : regex -> str -> Prop :=
| LEmpty : Lang Empty []
| LClass p c : p c = true -> Lang (Class p) [c]
| LSeq r1 r2 s1 s2 : Lang r1 s1 -> Lang r2 s2 -> Lang (Seq r1 r2) (s1 ++ s2)
| LAltL r1 r2 s : Lang r1 s -> Lang (Alt r1 r2) s
| LAltR r1 r2 s : Lang r2 s -> Lang (Alt r1 r2) s
| LStarNil r : Lang (Star r) []
| LStarCons r s1 s2 : Lang r s1 -> Lang (Star r) s2 -> Lang (Star r) (s1 ++ s2).

Fixpoint nullable (r : regex) : bool :=
  match r with
  | Never => false
  | Empty => true
  | Class _ => false
  | Seq r1 r2 => nullable r1 && nullable r2
  | Alt r1 r2 => nullable r1 || nullable r2
  | Star _ => true
  end.

(** Brzozowski derivative: what remains to be matched after reading [c]. *)
Fixpoint deriv (c : char) (r : regex) : regex :=
  match r with
  | Never => Never
  | Empty => Never
  | Class p => if p c then Empty else Never
  | Seq r1 r2 =>
      if nullable r1
      then Alt (Seq (deriv c r1) r2) (deriv c r2)
      else Seq (deriv c r1) r2
  | Alt r1 r2 => Alt (deriv c r1) (deriv c r2)
  | Star r1 => Seq (deriv c r1) (Star r1)
  end.

(** Whether [r] matches all of [s]. *)
Fixpoint fullmatch (r : regex) (s : str) : bool :=
  match s with
  | [] => nullable r
  | c :: s' => fullmatch (deriv c r) s'
  end.

(** Character classes. [between lo hi] is the range [lo-hi]. *)
Definition between (lo hi : ascii) (c : char) : bool :=
  (chr lo <=? c)%N && (c <=? chr hi)%N.

Definition one_of (l : string) (c : char) : bool :=
  existsb (N.eqb c) (py l).

Definition is_char (a : ascii) (c : char) : bool := N.eqb c (chr a).

(** [$] without [re.MULTILINE]: the end of the string, or just before a
    newline that ends the string. Under [re.match], which anchors the start
    only, a pattern ending in [$] accepts what the pattern matches in full,
    optionally followed by one newline. *)
Definition dollar : regex := Alt Empty (Class (is_char "010")).

(* ================================================================== *)
(** * Validation functions                                             *)
(* ================================================================== *)

(** [[a-zA-Z0-9._%+-]] *)
Definition local_class (c : char) : bool :=
  between "a" "z" c || between "A" "Z" c || between "0" "9" c
  || one_of "._%+-" c.

(** [[a-zA-z)-9.-]], as the source spells it: the ranges [a-z], [A-z] and
    [)-9], then [.] and [-]. *)
Definition domain_class (c : char) : bool :=
  between "a" "z" c || between "A" "z" c || between ")" "9" c
  || one_of ".-" c.

(** [[a-zA-Z]] *)
Definition alpha_class (c : char) : bool :=
  between "a" "z" c || between "A" "Z" c.

(** [r'^[a-zA-Z0-9._%+-]+@[a-zA-z)-9.-]+\.[a-zA-Z]{2,}$'] *)
Definition pattern : regex :=
  Seq (plus (Class local_class))
   (Seq (Class (is_char "@"))
    (Seq (plus (Class domain_class))
     (Seq (Class (is_char "."))
      (Seq (at_least_two (Class alpha_class)) dollar)))).

(** [bool(re.match(pattern, email))] *)
Definition validate_email (email : str) : bool := fullmatch pattern email.

(** [str.isspace] of one character: the code points Python treats as
    whitespace. *)
Definition isspace (c : char) : bool :=
  ((9 <=? c) && (c <=? 13) || (28 <=? c) && (c <=? 32)
   || (c =? 133) || (c =? 160) || (c =? 5760)
   || (8192 <=? c) && (c <=? 8202)
   || (c =? 8232) || (c =? 8233) || (c =? 8239) || (c =? 8287)
   || (c =? 12288))%N.

Fixpoint lstrip (s : str) : str :=
  match s with
  | [] => []
  | c :: s' => if isspace c then lstrip s' else s
  end.

Definition rstrip (s : str) : str := rev (lstrip (rev s)).

(** [s.strip()] *)
Definition strip (s : str) : str := rstrip (lstrip s).

(** [len(s)] *)
Definition len (s : str) : Z := Z.of_nat (List.length s).

(** Truth value of a [str]: non-empty. *)
Definition str_truthy (s : str) : bool :=
  match s with [] => false | _ :: _ => true end.

Definition name_error : string := "Name must be at least 2 characters.".
Definition age_error : string := "Age must be between 18 and 100.".
Definition gpa_error : string := "GPA must be between 0.0 and 4.0.".
Definition email_error : string := "Invalid email format.".

(** [errors.append(msg)] when [cond] holds. *)
Definition append_if (cond : bool) (msg : string) (errors : list string)
  : list string :=
  if cond then errors ++ [msg] else errors.

Definition validate_inputs (name : str) (age : Z) (gpa : pyfloat) (email : str)
  : list string :=
  let errors := [] in
  let errors :=
    append_if (negb (str_truthy name) || (len (strip name) <? 2)%Z)
      name_error errors in
  let errors :=
    append_if (negb ((18 <=? age)%Z && (age <=? 100)%Z)) age_error errors in
  let errors :=
    append_if (negb (fle (Finite 0) gpa && fle gpa (Finite 4)))
      gpa_error errors in
  let errors := append_if (negb (validate_email email)) email_error errors in
  errors.

(** The email rule as the specification words it: [local@domain.tld] with
    local one-or-more of letters, digits, [.], [_], [%], [+], [-]; domain
    one-or-more of letters, digits, [.], [-]; and a top-level segment of two
    or more letters. *)
Definition spec_domain_class (c : char) : bool :=
  between "a" "z" c || between "A" "Z" c || between "0" "9" c
  || one_of ".-" c.

Definition spec_pattern : regex :=
  Seq (plus (Class local_class))
   (Seq (Class (is_char "@"))
    (Seq (plus (Class spec_domain_class))
     (Seq (Class (is_char "."))
      (at_least_two (Class alpha_class))))).

Definition spec_email (email : str) : bool := fullmatch spec_pattern email.

(* ================================================================== *)
(** * The [students] table and the CRUD functions                      *)
(* ================================================================== *)

(** One row of [students]: the columns [id], [name], [age], [major], [gpa]
    and [email]. *)
Record row := mkrow {
  row_id : Z;
  row_name : str;
  row_age : Z;
  row_major : str;
  row_gpa : pyfloat;
  row_email : str
}.

(** The database file: the rows of [students] in rowid order, and the
    counter SQLite keeps in [sqlite_sequence] for an [AUTOINCREMENT] key
    (the largest rowid the table has ever held). *)
Record database := mkdb {
  students : list row;
  sqlite_sequence : Z
}.

(** The table right after [CREATE TABLE IF NOT EXISTS] on a fresh file. *)
Definition empty_db : database := mkdb [] 0.

Definition max_rowid (rows : list row) : Z :=
  fold_right (fun r m => Z.max (row_id r) m) 0%Z rows.

(** The largest rowid of a 64-bit signed key. *)
Definition MAX_ROWID : Z := 9223372036854775807.

(** [INSERT INTO students (name, age, major, gpa, email) VALUES (...)]:
    the new key is one more than the largest the table has ever held;
    [None] is SQLite's [SQLITE_FULL] error once that is the largest key. *)
Definition add_student (db : database)
    (name : str) (age : Z) (major : str) (gpa : pyfloat) (email : str)
  : option database :=
  let top := Z.max (sqlite_sequence db) (max_rowid (students db)) in
  if (top =? MAX_ROWID)%Z then None
  else Some (mkdb (students db ++ [mkrow (top + 1) name age major gpa email])
                  (top + 1)).

(** [SELECT * FROM students] *)
Definition view_students (db : database) : list row := students db.

(** [UPDATE students SET name=?, age=?, major=?, gpa=?, email=? WHERE id=?] *)
Definition update_student (db : database) (student_id : Z)
    (name : str) (age : Z) (major : str) (gpa : pyfloat) (email : str)
  : database :=
  mkdb (map (fun r =>
               if (row_id r =? student_id)%Z
               then mkrow (row_id r) name age major gpa email
               else r)
            (students db))
       (sqlite_sequence db).

(** [DELETE FROM students WHERE id=?] *)
Definition delete_student (db : database) (student_id : Z) : database :=
  mkdb (filter (fun r => negb (row_id r =? student_id)%Z) (students db))
       (sqlite_sequence db).

(** SQLite folds the ASCII letters only when [LIKE] compares characters. *)
Definition ascii_lower (c : char) : char :=
  if between "A" "Z" c then (c + 32)%N else c.

Definition like_char (p c : char) : bool :=
  is_char "_" p || N.eqb (ascii_lower p) (ascii_lower c).

(** [s LIKE p]: [%] stands for any run of characters, [_] for any one
    character, and every other character for itself up to ASCII case. *)
Fixpoint like (p s : str) : bool :=
  match p with
  | [] => match s with [] => true | _ :: _ => false end
  | c :: p' =>
      if is_char "%" c
      then (fix any (s : str) : bool :=
              like p' s || match s with [] => false | _ :: s' => any s' end) s
      else match s with
           | [] => false
           | d :: s' => like_char c d && like p' s'
           end
  end.

(** [SELECT * FROM students WHERE name LIKE ? OR major LIKE ?] with both
    parameters ['%' + query + '%']. *)
Definition search_students (db : database) (query : str) : list row :=
  let param := py "%" ++ query ++ py "%" in
  filter (fun r => like param (row_name r) || like param (row_major r))
         (students db).

(* ================================================================== *)
(** * ML: predict student performance                                  *)
(* ================================================================== *)

(** The two values of the [performance] column: ['High Performer'] and
    ['Needs Improvement']. *)
Inductive label := HighPerformer | NeedsImprovement.

Definition label_eqb (a b : label) : bool :=
  match a, b with
  | HighPerformer, HighPerformer => true
  | NeedsImprovement, NeedsImprovement => true
  | _, _ => false
  end.

(** [np.where(gpa >= 3.0, 'High Performer', 'Needs Improvement')] on one
    entry. *)
Definition performance (gpa : pyfloat) : label :=
  if fge gpa (Finite 3) then HighPerformer else NeedsImprovement.

(** The data frame [df]: the rows read from the table, and the two columns
    [train_and_predict] may add to it. *)
Record frame := mkframe {
  rows : list row;
  performance_column : option (list label);
  predicted_performance : option (list label)
}.

(** The frame [pd.read_sql_query] builds. *)
Definition read_frame (db : database) : frame :=
  mkframe (view_students db) None None.

(** One sample of [X = df[['age', 'gpa']]]. *)
Definition sample : Type := Z * pyfloat.

(** What the program imports from scikit-learn and numpy. The library is
    not part of the repository, so its functions are taken as they are
    documented:
    - [permutation n]: the order [RandomState(42).permutation(n)] shuffles
      [n] samples into ([train_test_split] with [random_state=42]);
    - [fit entropy X y]: [DecisionTreeClassifier(max_depth=3).fit(X, y)];
      the classifier is built without a [random_state], so ties between
      splits are broken from numpy's global generator, whose state is
      [entropy]; [None] when [fit] raises;
    - [predict model x]: the class the fitted tree gives one sample;
    - [feature_importances_ model]: the attribute of that name. *)
Record sklearn := {
  permutation : nat -> list nat;
  tree : Type;
  fit : N -> list sample -> list label -> option tree;
  predict : tree -> sample -> label;
  feature_importances_ : tree -> list pyfloat
}.

(** [_safe_indexing(a, indices)] *)
Definition take_indices {A : Type} (a : list A) (indices : list nat) : list A :=
  flat_map (fun i => match nth_error a i with
                     | Some x => [x]
                     | None => []
                     end) indices.

(** [ceil(0.2 * n)]: the size of the test part. *)
Definition n_test (n : nat) : nat := (n + 4) / 5.

(** [train_test_split(X, y, test_size=0.2, random_state=42)]: the first
    [n_test] entries of the shuffled order are the test part, the others
    the training part. *)
Definition train_test_split (sk : sklearn) {A B : Type}
    (X : list A) (y : list B) : list A * list A * list B * list B :=
  let n := List.length X in
  let order := permutation sk n in
  let test := firstn (n_test n) order in
  let train := skipn (n_test n) order in
  (take_indices X train, take_indices X test,
   take_indices y train, take_indices y test).

Fixpoint count_agree (y_true y_pred : list label) : nat :=
  match y_true, y_pred with
  | a :: t, b :: p => (if label_eqb a b then 1 else 0) + count_agree t p
  | _, _ => 0
  end.

(** [accuracy_score(y_true, y_pred)]: the fraction of positions where the
    two sequences agree (the mean of an empty sequence is a NaN). *)
Definition accuracy_score (y_true y_pred : list label) : pyfloat :=
  match y_true with
  | [] => NaN
  | _ :: _ =>
      Finite (Z.of_nat (count_agree y_true y_pred)
              # Pos.of_nat (List.length y_true))
  end.

(** What a call gives: a value, or an exception that escapes it. *)
Inductive outcome (A : Type) :=
| Returned (a : A)
| Raised.
Arguments Returned {A} a.
Arguments Raised {A}.

Definition importance_dict : Type := list (string * pyfloat).

Definition train_and_predict (sk : sklearn) (entropy : N) (df : frame)
  : outcome (frame * option pyfloat * option importance_dict) :=
  if (List.length (rows df) <? 10)%nat then Returned (df, None, None)
  else
    let labels := map (fun r => performance (row_gpa r)) (rows df) in
    let df := mkframe (rows df) (Some labels) (predicted_performance df) in
    let X := map (fun r => (row_age r, row_gpa r)) (rows df) in
    let y := labels in
    let '(X_train, X_test, y_train, y_test) := train_test_split sk X y in
    match fit sk entropy X_train y_train with
    | None => Raised
    | Some model =>
        let df := mkframe (rows df) (performance_column df)
                          (Some (map (predict sk model) X)) in
        let accuracy := accuracy_score y_test (map (predict sk model) X_test) in
        let feature_importance :=
          combine ["Age"%string; "GPA"%string] (feature_importances_ sk model) in
        Returned (df, Some accuracy, Some feature_importance)
    end.

(* ================================================================== *)
(** * The Streamlit app                                                *)
(* ================================================================== *)

(** What a branch of the menu puts on the page. *)
Inductive output :=
| st_error (msg : string)
| st_info (msg : string)
| st_warning (msg : string)
| st_success_added (name : str)
| st_success_updated (student_id : Z)
| st_success_deleted (student_id : Z)
| st_dataframe (table : list row)
| st_write_accuracy (accuracy : pyfloat)
| st_json (feature_importance : importance_dict)
| st_predictions (table : list (row * label))
| st_exception.

Definition not_found : string := "Student ID not found.".
Definition not_enough_data : string :=
  "Not enough data for ML predictions (need at least 10 students).".
Definition add_students_first : string := "Add students to enable ML.".
Definition may_need_improvement : string :=
  "Students who may need improvement: ".

(** [student_id in df['id'].values] *)
Definition id_in (student_id : Z) (df : list row) : bool :=
  existsb (fun r => (row_id r =? student_id)%Z) df.

(** The ['Add Student'] branch once the form is submitted. *)
Definition add_branch (db : database)
    (name : str) (age : Z) (major : str) (gpa : pyfloat) (email : str)
  : database * list output :=
  let errors := validate_inputs name age gpa email in
  match errors with
  | _ :: _ => (db, map st_error errors)
  | [] =>
      match add_student db name age major gpa email with
      | Some db' => (db', [st_success_added name])
      | None => (db, [st_exception])
      end
  end.

(** The ['Update Student'] branch once the form is submitted. *)
Definition update_branch (db : database) (student_id : Z)
    (name : str) (age : Z) (major : str) (gpa : pyfloat) (email : str)
  : database * list output :=
  let df := view_students db in
  if id_in student_id df then
    let errors := validate_inputs name age gpa email in
    match errors with
    | _ :: _ => (db, map st_error errors)
    | [] => (update_student db student_id name age major gpa email,
             [st_success_updated student_id])
    end
  else (db, [st_error not_found]).

(** The ['Delete Student'] branch once the button is pressed. *)
Definition delete_branch (db : database) (student_id : Z)
  : database * list output :=
  let df := view_students db in
  if id_in student_id df
  then (delete_student db student_id, [st_success_deleted student_id])
  else (db, [st_error not_found]).


(** Truth value of [accuracy], which is [None] or a float. *)
Definition accuracy_truthy (accuracy : option pyfloat) : bool :=
  match accuracy with
  | None => false
  | Some (Finite q) => negb (Qeq_bool q 0)
  | Some _ => true
  end.

(** The ['ML Recommendations'] branch. *)
Definition ml_branch (sk : sklearn) (entropy : N) (db : database)
  : list output :=
  let df := read_frame db in
  match rows df with
  | [] => [st_info add_students_first]
  | _ :: _ =>
      match train_and_predict sk entropy df with
      | Raised => [st_exception]
      | Returned (predicted_df, accuracy, feature_importance) =>
          if accuracy_truthy accuracy then
            match accuracy, feature_importance,
                  predicted_performance predicted_df with
            | Some a, Some fi, Some predicted =>
                let table := combine (rows predicted_df) predicted in
                let at_risk :=
                  filter (fun e => label_eqb (snd e) NeedsImprovement) table in
                [st_write_accuracy a; st_json fi; st_predictions table]
                ++ match at_risk with
                   | [] => []
                   | _ :: _ => [st_warning may_need_improvement;
                                st_predictions at_risk]
                   end
            | _, _, _ => [st_exception]
            end
          else [st_info not_enough_data]
      end
  end.

(** The three operations that write to the table, as the user can invoke
    them. *)
Inductive action :=
| AddStudent (name : str) (age : Z) (major : str) (gpa : pyfloat) (email : str)
| UpdateStudent (student_id : Z)
    (name : str) (age : Z) (major : str) (gpa : pyfloat) (email : str)
| DeleteStudent (student_id : Z).

Definition run (db : database) (a : action) : database * list output :=
  match a with
  | AddStudent name age major gpa email =>
      add_branch db name age major gpa email
  | UpdateStudent student_id name age major gpa email =>
      update_branch db student_id name age major gpa email
  | DeleteStudent student_id => delete_branch db student_id
  end.

(** The table after a sequence of operations. *)
Definition run_all (db : database) (actions : list action) : database :=
  fold_left (fun d a => fst (run d a)) actions db.

(** The states the operations can bring a fresh table to. *)
Inductive reachable : database -> Prop :=
| reach_empty : reachable empty_db
| reach_step db a : reachable db -> reachable (fst (run db a)).

(** A row passes validation when its fields give no violation. *)
Definition valid_row (r : row) : Prop :=
  validate_inputs (row_name r) (row_age r) (row_gpa r) (row_email r) = [].


(* ================================================================== *)
(** * Vocabulary of the properties                                     *)
(* ================================================================== *)

(** The message of a rule when the rule is violated, nothing otherwise. *)
Definition report (violated : bool) (msg : string) : list string :=
  if violated then [msg] else [].

(** A GPA inside [[0.0, 4.0]]. *)
Definition gpa_in_range (gpa : pyfloat) : Prop :=
  exists q : Q, gpa = Finite q /\ 0 <= q /\ q <= 4.

(** An age inside [[18, 100]]. *)
Definition age_in_range (age : Z) : Prop := (18 <= age <= 100)%Z.

(** A name with at least two characters once the whitespace around it is
    trimmed. *)
Definition name_long_enough (name : str) : Prop :=
  (2 <= List.length (strip name))%nat.






(** The pieces [train_and_predict] works with, by name: the labels and the
    features of a frame, and the two parts of its shuffled order. *)
Definition labels_of (df : frame) : list label :=
  map (fun r => performance (row_gpa r)) (rows df).

Definition features_of (df : frame) : list sample :=
  map (fun r => (row_age r, row_gpa r)) (rows df).

Definition test_part (sk : sklearn) (n : nat) : list nat :=
  firstn (n_test n) (permutation sk n).

Definition train_part (sk : sklearn) (n : nat) : list nat :=
  skipn (n_test n) (permutation sk n).

Definition X_train (sk : sklearn) (df : frame) : list sample :=
  take_indices (features_of df) (train_part sk (List.length (rows df))).

Definition X_test (sk : sklearn) (df : frame) : list sample :=
  take_indices (features_of df) (test_part sk (List.length (rows df))).

Definition y_train (sk : sklearn) (df : frame) : list label :=
  take_indices (labels_of df) (train_part sk (List.length (rows df))).

Definition y_test (sk : sklearn) (df : frame) : list label :=
  take_indices (labels_of df) (test_part sk (List.length (rows df))).

(** The sentinel [train_and_predict] returns for too little data: the
    frame as it came, with [None] for the accuracy and for the feature
    importance. *)
Definition insufficient_data
    (o : outcome (frame * option pyfloat * option importance_dict)) : Prop :=
  exists df, o = Returned (df, None, None).

(** The tolerance for a sum of floats that should be [1.0]. *)
Definition tolerance : Q := 1 # 1000000000.

(** A sample scikit-learn can hold: it stores features as 32-bit floats
    and rejects NaN, infinities and values beyond that range. *)
Definition storable (x : sample) : Prop :=
  (Z.abs (fst x) <= 2 ^ 127)%Z /\
  exists q : Q, snd x = Finite q /\ Qabs q <= inject_Z (2 ^ 127).

(** What the libraries' documentation promises about the functions of
    [sklearn]:
    - the shuffled order of [n] samples is a permutation of [0 .. n-1];
    - [fit] returns on a non-empty training set of storable samples with
      one label each;
    - a training set with a single label gives a tree that is one leaf: it
      predicts that label everywhere, and no feature has any importance
      (the importances are normalised only when their sum is positive);
    - the importances, one per feature, are non-negative, and sum to 1
      unless they are all zero. *)
Record sklearn_laws (sk : sklearn) : Prop := {
  permutation_shuffles :
    forall n, Permutation (permutation sk n) (seq 0 n);
  fit_returns :
    forall entropy X y,
      X <> [] -> List.length X = List.length y -> Forall storable X ->
      fit sk entropy X y <> None;
  pure_root_is_leaf :
    forall entropy X y model l,
      fit sk entropy X y = Some model -> y <> [] -> Forall (eq l) y ->
      (forall x, predict sk model x = l) /\
      Forall (fun w => feq w (Finite 0) = true) (feature_importances_ sk model);
  importances_normalised :
    forall entropy X y model,
      fit sk entropy X y = Some model ->
      exists a g : Q,
        feature_importances_ sk model = [Finite a; Finite g] /\
        0 <= a /\ 0 <= g /\
        (Qabs (a + g - 1) <= tolerance \/ (a == 0 /\ g == 0))
}.

(** A learner that meets [sklearn_laws], to show they can be met: it keeps
    the samples in order, and grows a leaf when the training labels are all
    the same and otherwise the one split [gpa >= 3.0]. *)
Inductive stump := Leaf (l : label) | SplitOnGpa.

Definition all_same (y : list label) : option label :=
  match y with
  | [] => None
  | l :: rest => if forallb (label_eqb l) rest then Some l else None
  end.

Definition stump_learner : sklearn := {|
  permutation := fun n => seq 0 n;
  tree := stump;
  fit := fun _ _ y =>
    Some match all_same y with
         | Some l => Leaf l
         | None => SplitOnGpa
         end;
  predict := fun model x =>
    match model with
    | Leaf l => l
    | SplitOnGpa => performance (snd x)
    end;
  feature_importances_ := fun model =>
    match model with
    | Leaf _ => [Finite 0; Finite 0]
    | SplitOnGpa => [Finite 0; Finite 1]
    end
|}.

(** A row as the form would submit it, with a given key and GPA. *)
Definition sample_row (student_id : Z) (gpa : pyfloat) : row :=
  mkrow student_id (py "Al B") 20 (py "CS") gpa (py "a@b.com").

(** Ten rows with keys 1 to 10, the GPA of each chosen by [gpa_at] from
    its position. *)
Definition ten_rows (gpa_at : nat -> pyfloat) : list row :=
  map (fun i => sample_row (Z.of_nat i + 1) (gpa_at i)) (seq 0 10).

(** Ten students who all have a GPA of 3.5. *)
Definition ten_high : database :=
  mkdb (ten_rows (fun _ => Finite (7 # 2))) 10.

(** Ten students of whom exactly those at the positions [held_out] have a
    GPA of 3.5, and the others one of 2.0. *)
Definition ten_split (held_out : list nat) : database :=
  mkdb (ten_rows (fun i => if existsb (Nat.eqb i) held_out
                           then Finite (7 # 2) else Finite 2)) 10.

(** A table with one student, whose name and major hold no underscore. *)
Definition one_student : database :=
  mkdb [mkrow 1 (py "Al B") 20 (py "CS") (Finite (7 # 2)) (py "a@b.com")] 1.

(** The keys of the rows a query returned. *)
Definition ids (df : list row) : list Z := map row_id df.

(** No row has a key above the counter of [sqlite_sequence]. *)
Definition ids_bounded (db : database) : Prop :=
  Forall (fun r => (row_id r <= sqlite_sequence db)%Z) (students db).

(* ================================================================== *)
(** * Further vocabulary                                               *)
(* ================================================================== *)

(** What a writing branch shows when it wrote. *)
Definition is_success (o : output) : Prop :=
  match o with
  | st_success_added _ | st_success_updated _ | st_success_deleted _ => True
  | _ => False
  end.

(** What a writing branch shows when it did not write. *)
Definition is_failure (o : output) : Prop :=
  match o with
  | st_error _ | st_exception => True
  | _ => False
  end.

(** A submission of the add form that passes validation. *)
Definition a_valid_student : action :=
  AddStudent (py "Al B") 20 (py "CS") (Finite (7 # 2)) (py "a@b.com").


(* ================================================================== *)
(** * Analytics & Reports                                              *)
(* ================================================================== *)

(** [a == b] on [str]. *)
Fixpoint str_eqb (a b : str) : bool :=
  match a, b with
  | [], [] => true
  | x :: a', y :: b' => N.eqb x y && str_eqb a' b'
  | _, _ => false
  end.

(** [a < b] on [str]: by code points from the left, a proper prefix
    first. *)
Fixpoint str_ltb (a b : str) : bool :=
  match a, b with
  | _, [] => false
  | [], _ :: _ => true
  | x :: a', y :: b' => (x <? y)%N || (N.eqb x y && str_ltb a' b')
  end.

(** How many rows hold the major [m]. *)
Definition count_major (m : str) (df : list row) : nat :=
  List.length (filter (fun r => str_eqb (row_major r) m) df).

(** Whether the major [m] comes before [best] in what [mode] returns: it
    is found more often, or as often and sorts first. *)
Definition beats (df : list row) (m best : str) : bool :=
  (count_major best df <? count_major m df)%nat
  || ((count_major m df =? count_major best df)%nat && str_ltb m best).

(** [df['major'].mode()[0]]: [mode] returns the values found most often,
    sorted, so its entry 0 is the smallest of them; on an empty column
    there is no entry 0 ([None]). *)
Definition top_major (df : list row) : option str :=
  match df with
  | [] => None
  | r :: rest =>
      Some (fold_left
              (fun best r' =>
                 if beats df (row_major r') best then row_major r' else best)
              rest (row_major r))
  end.

(** Three students, two of them in the same major. *)
Definition three_students : list row :=
  [mkrow 1 (py "Al B") 20 (py "EE") (Finite 3) (py "a@b.com");
   mkrow 2 (py "Bo C") 21 (py "CS") (Finite 2) (py "b@c.org");
   mkrow 3 (py "Cy D") 22 (py "CS") (Finite 4) (py "c@d.net")].
(* ================================================================== *)
(** * The matcher decides the language of a pattern                    *)
(* ================================================================== *)

Ltac inv H := inversion H; subst; clear H.

Lemma nullable_Lang (r : regex) : nullable r = true <-> Lang r [].
Proof.
  induction r; simpl; split; intro H; try discriminate.
  - inv H.
  - constructor.
  - reflexivity.
  - inv H.
  - apply andb_true_iff in H as [H1 H2].
    change (@nil char) with (@nil char ++ []).
    constructor; [apply IHr1 | apply IHr2]; assumption.
  - inv H.
    match goal with E : _ ++ _ = [] |- _ => apply app_eq_nil in E as [-> ->] end.
    apply andb_true_iff; split; [apply IHr1 | apply IHr2]; assumption.
  - apply orb_true_iff in H as [H | H].
    + apply LAltL, IHr1, H.
    + apply LAltR, IHr2, H.
  - apply orb_true_iff. inv H.
    + left; apply IHr1; assumption.
    + right; apply IHr2; assumption.
  - constructor.
  - reflexivity.
Qed.

Lemma Lang_star_cons (r : regex) (c : char) (s : str) :
  Lang (Star r) (c :: s) ->
  exists s1 s2, s = s1 ++ s2 /\ Lang r (c :: s1) /\ Lang (Star r) s2.
Proof.
  intro H. remember (Star r) as r' eqn:Er. remember (c :: s) as w eqn:Ew.
  induction H; try discriminate.
  injection Er as ->.
  destruct s1 as [|d s1].
  - simpl in Ew. apply IHLang2; [reflexivity | assumption].
  - simpl in Ew. injection Ew as -> <-.
    exists s1, s2. repeat split; assumption.
Qed.

Lemma Lang_seq_cons (r1 r2 : regex) (c : char) (s : str) :
  Lang (Seq r1 r2) (c :: s) ->
  (Lang r1 [] /\ Lang r2 (c :: s))
  \/ exists s1 s2, s = s1 ++ s2 /\ Lang r1 (c :: s1) /\ Lang r2 s2.
Proof.
  intro H. inversion H as [| | ? ? s1 s2 H1 H2 Er Es | | | |]; subst.
  destruct s1 as [|d s1]; simpl in Es.
  - subst. left. split; assumption.
  - injection Es as -> <-. right. exists s1, s2. repeat split; assumption.
Qed.

Lemma deriv_Lang (r : regex) : forall (c : char) (s : str),
  Lang (deriv c r) s <-> Lang r (c :: s).
Proof.
  induction r; intros c s; simpl.
  - split; intro H; inv H.
  - split; intro H; inv H.
  - destruct (p c) eqn:Ep; split; intro H; inv H.
    + constructor; assumption.
    + constructor.
    + congruence.
  - assert (Hcat : Lang (Seq (deriv c r1) r2) s ->
                   Lang (Seq r1 r2) (c :: s)).
    { intro H. inv H.
      match goal with |- Lang _ (c :: ?a ++ ?b) =>
        change (c :: a ++ b) with ((c :: a) ++ b) end.
      constructor; [apply IHr1 |]; assumption. }
    destruct (nullable r1) eqn:En; split; intro H.
    + inv H.
      * apply Hcat; assumption.
      * change (c :: s) with ([] ++ c :: s).
        constructor; [apply nullable_Lang | apply IHr2]; assumption.
    + apply Lang_seq_cons in H as [[H1 H2] | (s1 & s2 & -> & H1 & H2)].
      * apply LAltR, IHr2. assumption.
      * apply LAltL. constructor; [apply IHr1 |]; assumption.
    + apply Hcat; assumption.
    + apply Lang_seq_cons in H as [[H1 H2] | (s1 & s2 & -> & H1 & H2)].
      * apply nullable_Lang in H1. congruence.
      * constructor; [apply IHr1 |]; assumption.
  - split; intro H; inv H.
    + apply LAltL, IHr1; assumption.
    + apply LAltR, IHr2; assumption.
    + apply LAltL, IHr1; assumption.
    + apply LAltR, IHr2; assumption.
  - split; intro H.
    + inv H.
      match goal with |- Lang _ (c :: ?a ++ ?b) =>
        change (c :: a ++ b) with ((c :: a) ++ b) end.
      constructor; [apply IHr |]; assumption.
    + apply Lang_star_cons in H as (s1 & s2 & -> & H1 & H2).
      constructor; [apply IHr |]; assumption.
Qed.

Lemma fullmatch_Lang (s : str) : forall r : regex,
  fullmatch r s = true <-> Lang r s.
Proof.
  induction s as [|c s IH]; intro r; simpl.
  - apply nullable_Lang.
  - rewrite IH. apply deriv_Lang.
Qed.

(** ** Languages of the building blocks *)

Lemma Lang_seq (r1 r2 : regex) (s : str) :
  Lang (Seq r1 r2) s <->
  exists s1 s2, s = s1 ++ s2 /\ Lang r1 s1 /\ Lang r2 s2.
Proof.
  split.
  - intro H. inv H. eauto.
  - intros (s1 & s2 & -> & H1 & H2). constructor; assumption.
Qed.

Lemma Lang_class (p : char -> bool) (s : str) :
  Lang (Class p) s <-> exists c, s = [c] /\ p c = true.
Proof.
  split.
  - intro H. inv H. eauto.
  - intros (c & -> & H). constructor; assumption.
Qed.

Lemma Lang_is_char (a : ascii) (s : str) :
  Lang (Class (is_char a)) s <-> s = [chr a].
Proof.
  rewrite Lang_class. unfold is_char. split.
  - intros (c & -> & H). apply N.eqb_eq in H. congruence.
  - intros ->. exists (chr a). split; [reflexivity | apply N.eqb_refl].
Qed.

Lemma Lang_star_class (p : char -> bool) (s : str) :
  Lang (Star (Class p)) s <-> forallb p s = true.
Proof.
  split.
  - intro H. remember (Star (Class p)) as r eqn:Er.
    induction H; try discriminate.
    + reflexivity.
    + injection Er as ->. inv H.
      simpl. rewrite IHLang2 by reflexivity.
      match goal with E : p _ = true |- _ => rewrite E end. reflexivity.
  - induction s as [|c s IH]; simpl; intro H.
    + constructor.
    + apply andb_true_iff in H as [Hc Hs].
      change (c :: s) with ([c] ++ s).
      constructor; [constructor; assumption | apply IH; assumption].
Qed.

Lemma Lang_plus_class (p : char -> bool) (s : str) :
  Lang (plus (Class p)) s <-> s <> [] /\ forallb p s = true.
Proof.
  unfold plus. rewrite Lang_seq. split.
  - intros (s1 & s2 & -> & H1 & H2).
    apply Lang_class in H1 as (c & -> & Hc).
    apply Lang_star_class in H2. simpl. rewrite Hc, H2.
    split; [discriminate | reflexivity].
  - intros [Hne H]. destruct s as [|c s]; [congruence|].
    simpl in H. apply andb_true_iff in H as [Hc Hs].
    exists [c], s. repeat split.
    + constructor; assumption.
    + apply Lang_star_class; assumption.
Qed.

Lemma Lang_at_least_two_class (p : char -> bool) (s : str) :
  Lang (at_least_two (Class p)) s <->
  (2 <= List.length s)%nat /\ forallb p s = true.
Proof.
  unfold at_least_two. rewrite Lang_seq. split.
  - intros (s1 & s2 & -> & H1 & H2).
    apply Lang_class in H1 as (c & -> & Hc).
    apply Lang_seq in H2 as (s3 & s4 & -> & H3 & H4).
    apply Lang_class in H3 as (d & -> & Hd).
    apply Lang_star_class in H4. simpl. rewrite Hc, Hd, H4.
    split; [lia | reflexivity].
  - intros [Hlen H]. destruct s as [|c [|d s]]; simpl in Hlen; try lia.
    simpl in H. apply andb_true_iff in H as [Hc H].
    apply andb_true_iff in H as [Hd Hs].
    exists [c], (d :: s). repeat split.
    + constructor; assumption.
    + change (d :: s) with ([d] ++ s).
      constructor; [constructor; assumption | apply Lang_star_class; assumption].
Qed.

Lemma Lang_dollar (s : str) : Lang dollar s <-> s = [] \/ s = [chr "010"].
Proof.
  unfold dollar. split.
  - intro H. inv H.
    + match goal with E : Lang Empty _ |- _ => inv E end. left; reflexivity.
    + right. apply Lang_is_char. assumption.
  - intros [-> | ->].
    + apply LAltL. constructor.
    + apply LAltR. apply Lang_is_char. reflexivity.
Qed.

(** What [validate_email] accepts: a non-empty local part from its class,
    an [@], a non-empty domain from the class the source spells, a dot, two
    or more letters, and at most one newline after them. *)
Lemma validate_email_shape (email : str) :
  validate_email email = true <->
  exists local domain tld newline,
    email = local ++ [chr "@"] ++ domain ++ [chr "."] ++ tld ++ newline /\
    local <> [] /\ forallb local_class local = true /\
    domain <> [] /\ forallb domain_class domain = true /\
    (2 <= List.length tld)%nat /\ forallb alpha_class tld = true /\
    (newline = [] \/ newline = [chr "010"]).
Proof.
  unfold validate_email, pattern. rewrite fullmatch_Lang. split.
  - intro H.
    apply Lang_seq in H as (l & s1 & -> & Hl & H).
    apply Lang_seq in H as (a & s2 & -> & Ha & H).
    apply Lang_seq in H as (d & s3 & -> & Hd & H).
    apply Lang_seq in H as (o & s4 & -> & Ho & H).
    apply Lang_seq in H as (t & n & -> & Ht & Hn).
    apply Lang_is_char in Ha, Ho. subst a o.
    apply Lang_plus_class in Hl as [? ?], Hd as [? ?].
    apply Lang_at_least_two_class in Ht as [? ?].
    apply Lang_dollar in Hn.
    exists l, d, t, n. repeat split; assumption.
  - intros (l & d & t & n & -> & Hl & Hl' & Hd & Hd' & Ht & Ht' & Hn).
    repeat (apply LSeq).
    + apply Lang_plus_class; split; assumption.
    + apply Lang_is_char; reflexivity.
    + apply Lang_plus_class; split; assumption.
    + apply Lang_is_char; reflexivity.
    + apply Lang_at_least_two_class; split; assumption.
    + apply Lang_dollar; assumption.
Qed.

(** What the specification's pattern accepts. *)
Lemma spec_email_shape (email : str) :
  spec_email email = true <->
  exists local domain tld,
    email = local ++ [chr "@"] ++ domain ++ [chr "."] ++ tld /\
    local <> [] /\ forallb local_class local = true /\
    domain <> [] /\ forallb spec_domain_class domain = true /\
    (2 <= List.length tld)%nat /\ forallb alpha_class tld = true.
Proof.
  unfold spec_email, spec_pattern. rewrite fullmatch_Lang. split.
  - intro H.
    apply Lang_seq in H as (l & s1 & -> & Hl & H).
    apply Lang_seq in H as (a & s2 & -> & Ha & H).
    apply Lang_seq in H as (d & s3 & -> & Hd & H).
    apply Lang_seq in H as (o & t & -> & Ho & Ht).
    apply Lang_is_char in Ha, Ho. subst a o.
    apply Lang_plus_class in Hl as [? ?], Hd as [? ?].
    apply Lang_at_least_two_class in Ht as [? ?].
    exists l, d, t. repeat split; assumption.
  - intros (l & d & t & -> & Hl & Hl' & Hd & Hd' & Ht & Ht').
    repeat (apply LSeq).
    + apply Lang_plus_class; split; assumption.
    + apply Lang_is_char; reflexivity.
    + apply Lang_plus_class; split; assumption.
    + apply Lang_is_char; reflexivity.
    + apply Lang_at_least_two_class; split; assumption.
Qed.

Lemma spec_domain_in_domain (c : char) :
  spec_domain_class c = true -> domain_class c = true.
Proof.
  unfold spec_domain_class, domain_class, between, one_of. simpl.
  unfold chr. simpl. intro H.
  repeat (apply orb_true_iff in H as [H | H]);
    repeat rewrite orb_true_iff;
    repeat rewrite andb_true_iff in *;
    repeat rewrite N.leb_le in *; repeat rewrite N.eqb_eq in *.
  - left; left; left. lia.
  - left; left; right. lia.
  - left; right. lia.
  - right. left. assumption.
  - right. right. left. assumption.
  - discriminate.
Qed.

(** Every email the specification's pattern accepts, the source's pattern
    accepts as well. *)
Lemma spec_email_accepted (email : str) :
  spec_email email = true -> validate_email email = true.
Proof.
  rewrite spec_email_shape, validate_email_shape.
  intros (l & d & t & -> & Hl & Hl' & Hd & Hd' & Ht & Ht').
  exists l, d, t, []. rewrite app_nil_r.
  repeat split; try assumption.
  - rewrite forallb_forall in *. intros c Hc.
    apply spec_domain_in_domain, Hd', Hc.
  - left; reflexivity.
Qed.

(* ================================================================== *)
(** * Validation                                                       *)
(* ================================================================== *)

Lemma validate_inputs_reports (name : str) (age : Z) (gpa : pyfloat)
    (email : str) :
  validate_inputs name age gpa email =
    report (negb (str_truthy name) || (len (strip name) <? 2)%Z) name_error
    ++ report (negb ((18 <=? age)%Z && (age <=? 100)%Z)) age_error
    ++ report (negb (fle (Finite 0) gpa && fle gpa (Finite 4))) gpa_error
    ++ report (negb (validate_email email)) email_error.
Proof.
  unfold validate_inputs, append_if, report.
  destruct (negb (str_truthy name) || (len (strip name) <? 2)%Z);
    destruct (negb ((18 <=? age)%Z && (age <=? 100)%Z));
    destruct (negb (fle (Finite 0) gpa && fle gpa (Finite 4)));
    destruct (negb (validate_email email)); reflexivity.
Qed.

Lemma name_rule (name : str) :
  negb (str_truthy name) || (len (strip name) <? 2)%Z = true <->
  ~ name_long_enough name.
Proof.
  unfold name_long_enough, len. rewrite orb_true_iff, Z.ltb_lt. split.
  - intros [H | H]; [| lia].
    destruct name; [simpl; lia | discriminate].
  - intro H. right. lia.
Qed.

Lemma age_rule (age : Z) :
  negb ((18 <=? age)%Z && (age <=? 100)%Z) = true <-> ~ age_in_range age.
Proof.
  unfold age_in_range. rewrite negb_true_iff, andb_false_iff.
  rewrite !Z.leb_gt. lia.
Qed.

Lemma gpa_test (gpa : pyfloat) :
  fle (Finite 0) gpa && fle gpa (Finite 4) = true <-> gpa_in_range gpa.
Proof.
  unfold gpa_in_range. split.
  - intro H. apply andb_true_iff in H as [H0 H4].
    destruct gpa as [q | | |]; simpl in *; try discriminate.
    exists q. rewrite <- !Qle_bool_iff. auto.
  - intros (q & -> & H0 & H4). simpl.
    apply andb_true_iff. rewrite !Qle_bool_iff. auto.
Qed.

Lemma gpa_rule (gpa : pyfloat) :
  negb (fle (Finite 0) gpa && fle gpa (Finite 4)) = true <->
  ~ gpa_in_range gpa.
Proof.
  rewrite negb_true_iff, <- gpa_test.
  destruct (fle (Finite 0) gpa && fle gpa (Finite 4)); split;
    congruence.
Qed.

Lemma report_nil (violated : bool) (msg : string) :
  report violated msg = [] <-> violated = false.
Proof. destruct violated; simpl; split; congruence. Qed.

Lemma app_nil_iff {A : Type} (l1 l2 : list A) :
  l1 ++ l2 = [] <-> l1 = [] /\ l2 = [].
Proof.
  split; [apply app_eq_nil | intros [-> ->]; reflexivity].
Qed.

Lemma name_ok (name : str) :
  negb (str_truthy name) || (len (strip name) <? 2)%Z = false <->
  name_long_enough name.
Proof.
  unfold name_long_enough, len. rewrite orb_false_iff, Z.ltb_ge. split.
  - intros [_ H]. lia.
  - intro H. split; [| lia].
    destruct name; [simpl in H; lia | reflexivity].
Qed.

Lemma age_ok (age : Z) :
  negb ((18 <=? age)%Z && (age <=? 100)%Z) = false <-> age_in_range age.
Proof.
  unfold age_in_range. rewrite negb_false_iff, andb_true_iff, !Z.leb_le.
  reflexivity.
Qed.

Lemma gpa_ok (gpa : pyfloat) :
  negb (fle (Finite 0) gpa && fle gpa (Finite 4)) = false <->
  gpa_in_range gpa.
Proof. rewrite negb_false_iff. apply gpa_test. Qed.

(** No violation at all means every rule holds. *)
Lemma validate_inputs_nil (name : str) (age : Z) (gpa : pyfloat)
    (email : str) :
  validate_inputs name age gpa email = [] <->
  name_long_enough name /\ age_in_range age /\ gpa_in_range gpa /\
  validate_email email = true.
Proof.
  rewrite validate_inputs_reports, !app_nil_iff, !report_nil.
  rewrite name_ok, age_ok, gpa_ok, negb_false_iff. reflexivity.
Qed.

Lemma In_report (violated : bool) (msg m : string) :
  In m (report violated msg) <-> violated = true /\ m = msg.
Proof.
  destruct violated; simpl; split.
  - intros [<- | []]. auto.
  - intros [_ ->]. auto.
  - intros [].
  - intros [H _]. discriminate.
Qed.

Lemma In_validate_inputs (name : str) (age : Z) (gpa : pyfloat)
    (email : str) (m : string) :
  In m (validate_inputs name age gpa email) <->
  (m = name_error /\ ~ name_long_enough name) \/
  (m = age_error /\ ~ age_in_range age) \/
  (m = gpa_error /\ ~ gpa_in_range gpa) \/
  (m = email_error /\ validate_email email = false).
Proof.
  rewrite validate_inputs_reports, !in_app_iff, !In_report.
  rewrite name_rule, age_rule, gpa_rule, negb_true_iff. tauto.
Qed.

Lemma email_has_at_and_dot (email : str) :
  validate_email email = true ->
  In (chr "@") email /\ In (chr ".") email.
Proof.
  intro H. apply validate_email_shape in H
    as (l & d & t & n & -> & _).
  split; rewrite !in_app_iff; simpl; auto 10.
Qed.

(** C8. [validate_inputs] takes its four arguments and nothing else, and
    returns a list and nothing else. The list holds, in the order of the
    rules and each at most once, the message of every violated rule: the
    name rule (two characters after trimming), the age rule (18 to 100),
    the GPA rule (0.0 to 4.0) and the email rule, all four evaluated
    whatever the others give. An age outside [18,100] brings the age
    message, a GPA outside [0.0,4.0] the GPA message, an email without [@]
    or without a dot the email message; 18, 100, 0.0 and 4.0 are valid; and
    the inputs ["Al B"], 20, 3.5, ["a@b.com"] give the empty list. *)
Theorem validate_inputs_reports_every_violation
    (name : str) (age : Z) (gpa : pyfloat) (email : str) :
  (exists v_name v_age v_gpa v_email : bool,
     validate_inputs name age gpa email =
       report v_name name_error ++ report v_age age_error
       ++ report v_gpa gpa_error ++ report v_email email_error /\
     (v_name = true <-> ~ name_long_enough name) /\
     (v_age = true <-> ~ age_in_range age) /\
     (v_gpa = true <-> ~ gpa_in_range gpa) /\
     (v_email = true <-> validate_email email = false)) /\
  (~ age_in_range age -> In age_error (validate_inputs name age gpa email)) /\
  (~ gpa_in_range gpa -> In gpa_error (validate_inputs name age gpa email)) /\
  (~ In (chr "@") email ->
   In email_error (validate_inputs name age gpa email)) /\
  (~ In (chr ".") email ->
   In email_error (validate_inputs name age gpa email)) /\
  ~ In age_error (validate_inputs name 18 gpa email) /\
  ~ In age_error (validate_inputs name 100 gpa email) /\
  ~ In gpa_error (validate_inputs name age (Finite 0) email) /\
  ~ In gpa_error (validate_inputs name age (Finite 4) email) /\
  (validate_inputs name age gpa email = [] <->
   name_long_enough name /\ age_in_range age /\ gpa_in_range gpa /\
   validate_email email = true) /\
  validate_inputs (py "Al B") 20 (Finite (7 # 2)) (py "a@b.com") = [].
Proof.
  split.
  { eexists _, _, _, _. split; [apply validate_inputs_reports |].
    rewrite name_rule, age_rule, gpa_rule, negb_true_iff. tauto. }
  split. { intro H. apply In_validate_inputs. auto. }
  split. { intro H. apply In_validate_inputs. auto. }
  split.
  { intro H. apply In_validate_inputs. right; right; right.
    split; [reflexivity |].
    destruct (validate_email email) eqn:E; [| reflexivity].
    apply email_has_at_and_dot in E. tauto. }
  split.
  { intro H. apply In_validate_inputs. right; right; right.
    split; [reflexivity |].
    destruct (validate_email email) eqn:E; [| reflexivity].
    apply email_has_at_and_dot in E. tauto. }
  split.
  { rewrite In_validate_inputs. unfold age_in_range.
    intros [[H _] | [[_ H] | [[H _] | [H _]]]];
      try discriminate H. lia. }
  split.
  { rewrite In_validate_inputs. unfold age_in_range.
    intros [[H _] | [[_ H] | [[H _] | [H _]]]];
      try discriminate H. lia. }
  split.
  { rewrite In_validate_inputs.
    intros [[H _] | [[H _] | [[_ H] | [H _]]]];
      try discriminate H.
    apply H. exists 0. repeat split; [apply Qle_refl | discriminate]. }
  split.
  { rewrite In_validate_inputs.
    intros [[H _] | [[H _] | [[_ H] | [H _]]]];
      try discriminate H.
    apply H. exists 4. repeat split; [discriminate | apply Qle_refl]. }
  split. { apply validate_inputs_nil. }
  vm_compute. reflexivity.
Qed.

(* ================================================================== *)
(** * The email pattern                                                *)
(* ================================================================== *)

(** C2. The source's pattern accepts addresses the specified pattern
    rejects: its domain class reads [A-z] and [)-9] where [A-Z] and [0-9]
    were meant, so an underscore or a closing parenthesis passes in the
    domain; and [$] lets one trailing newline pass. *)
Theorem validate_email_accepts_stray_characters :
  validate_email (py "a@b_c.com") = true /\
  spec_email (py "a@b_c.com") = false /\
  validate_email (py "a@b)c.com") = true /\
  spec_email (py "a@b)c.com") = false /\
  validate_email (py "a@b.com" ++ [chr "010"]) = true /\
  spec_email (py "a@b.com" ++ [chr "010"]) = false.
Proof. vm_compute. repeat split. Qed.

(* ================================================================== *)
(** * The table                                                        *)
(* ================================================================== *)

Lemma id_in_spec (student_id : Z) (df : list row) :
  id_in student_id df = true <-> In student_id (map row_id df).
Proof.
  unfold id_in. rewrite existsb_exists, in_map_iff. split.
  - intros (r & Hr & E). apply Z.eqb_eq in E. eauto.
  - intros (r & E & Hr). exists r. split; [assumption |].
    apply Z.eqb_eq; assumption.
Qed.

Lemma id_in_false (student_id : Z) (df : list row) :
  id_in student_id df = false <-> ~ In student_id (map row_id df).
Proof.
  rewrite <- id_in_spec. destruct (id_in student_id df); split; congruence.
Qed.

(** A branch that reports an error leaves the table as it was; this is how
    validation comes before every write. *)
Lemma add_branch_cases (db : database)
    (name : str) (age : Z) (major : str) (gpa : pyfloat) (email : str) :
  (validate_inputs name age gpa email <> [] /\
   add_branch db name age major gpa email =
     (db, map st_error (validate_inputs name age gpa email)))
  \/ (validate_inputs name age gpa email = [] /\
      add_student db name age major gpa email = None /\
      add_branch db name age major gpa email = (db, [st_exception]))
  \/ (validate_inputs name age gpa email = [] /\
      exists db', add_student db name age major gpa email = Some db' /\
      add_branch db name age major gpa email = (db', [st_success_added name])).
Proof.
  unfold add_branch.
  destruct (validate_inputs name age gpa email) as [|e errors] eqn:E.
  - right. destruct (add_student db name age major gpa email) as [db'|].
    + right. split; [reflexivity |]. exists db'. split; reflexivity.
    + left. repeat split.
  - left. split; [discriminate | reflexivity].
Qed.

Lemma update_branch_cases (db : database) (student_id : Z)
    (name : str) (age : Z) (major : str) (gpa : pyfloat) (email : str) :
  (id_in student_id (view_students db) = false /\
   update_branch db student_id name age major gpa email =
     (db, [st_error not_found]))
  \/ (id_in student_id (view_students db) = true /\
      validate_inputs name age gpa email <> [] /\
      update_branch db student_id name age major gpa email =
        (db, map st_error (validate_inputs name age gpa email)))
  \/ (id_in student_id (view_students db) = true /\
      validate_inputs name age gpa email = [] /\
      update_branch db student_id name age major gpa email =
        (update_student db student_id name age major gpa email,
         [st_success_updated student_id])).
Proof.
  unfold update_branch.
  destruct (id_in student_id (view_students db)).
  - right.
    destruct (validate_inputs name age gpa email) as [|e errors] eqn:E.
    + right. repeat split.
    + left. repeat split. discriminate.
  - left. split; reflexivity.
Qed.

Lemma add_student_rows (db db' : database)
    (name : str) (age : Z) (major : str) (gpa : pyfloat) (email : str) :
  add_student db name age major gpa email = Some db' ->
  exists student_id,
    (sqlite_sequence db < student_id)%Z /\
    (max_rowid (students db) < student_id)%Z /\
    sqlite_sequence db' = student_id /\
    students db' =
      students db ++ [mkrow student_id name age major gpa email].
Proof.
  unfold add_student.
  destruct (Z.max (sqlite_sequence db) (max_rowid (students db)) =? MAX_ROWID)%Z;
    [discriminate |].
  intro H. injection H as <-. eexists. simpl.
  repeat split; lia.
Qed.

(** Rows are written only with fields that passed validation. *)
Lemma reachable_rows_valid (db : database) :
  reachable db -> Forall valid_row (students db).
Proof.
  induction 1 as [| db a Hreach IH].
  - constructor.
  - destruct a as [name age major gpa email
                  | student_id name age major gpa email
                  | student_id]; simpl.
    + destruct (add_branch_cases db name age major gpa email)
        as [[_ ->] | [(_ & _ & ->) | (Hv & db' & Hadd & ->)]];
        simpl; try assumption.
      apply add_student_rows in Hadd as (i & _ & _ & _ & ->).
      apply Forall_app. split; [assumption |].
      constructor; [exact Hv | constructor].
    + destruct (update_branch_cases db student_id name age major gpa email)
        as [[_ ->] | [(_ & _ & ->) | (_ & Hv & ->)]];
        simpl; try assumption.
      rewrite Forall_forall in *. intros r Hr.
      apply in_map_iff in Hr as (r0 & <- & Hr0).
      destruct (row_id r0 =? student_id)%Z; [exact Hv | apply IH, Hr0].
    + unfold delete_branch.
      destruct (id_in student_id (view_students db)); simpl;
        [| assumption].
      rewrite Forall_forall in *. intros r Hr.
      apply filter_In in Hr as [Hr _]. apply IH, Hr.
Qed.

(** Fields that fail validation are never written. *)
Lemma rejected_fields_not_written (db : database) (student_id : Z)
    (name : str) (age : Z) (major : str) (gpa : pyfloat) (email : str) :
  validate_inputs name age gpa email <> [] ->
  fst (run db (AddStudent name age major gpa email)) = db /\
  fst (run db (UpdateStudent student_id name age major gpa email)) = db.
Proof.
  intro Hv. simpl. split.
  - destruct (add_branch_cases db name age major gpa email)
      as [[_ ->] | [(E & _) | (E & _)]]; [reflexivity | |]; contradiction.
  - destruct (update_branch_cases db student_id name age major gpa email)
      as [[_ ->] | [(_ & _ & ->) | (_ & E & _)]];
      [reflexivity | reflexivity | contradiction].
Qed.

(** C1. Every table the three writing operations can produce from a fresh
    one holds only rows that pass validation: the add and update branches
    write a row only after [validate_inputs] returned no violation for its
    fields, and leave the table as it was when it returned one. *)
Theorem store_rows_pass_validation (db : database) :
  reachable db ->
  Forall valid_row (students db) /\
  (forall student_id name age major gpa email,
     validate_inputs name age gpa email <> [] ->
     fst (run db (AddStudent name age major gpa email)) = db /\
     fst (run db (UpdateStudent student_id name age major gpa email)) = db).
Proof.
  intro Hreach. split.
  - apply reachable_rows_valid, Hreach.
  - intros. apply rejected_fields_not_written. assumption.
Qed.

Lemma store_rows_pass_validation_witness :
  Forall valid_row
    (students
       (fst (run empty_db
               (AddStudent (py "Al B") 20 (py "CS") (Finite (7 # 2))
                           (py "a@b.com"))))).
Proof.
  apply store_rows_pass_validation.
  apply reach_step. apply reach_empty.
Defined.

(** ** Keys are never used again *)

Lemma run_ids_bounded (a : action) (db : database) :
  ids_bounded db -> ids_bounded (fst (run db a)).
Proof.
  unfold ids_bounded. intros Hb.
  destruct a as [name age major gpa email
                | sid name age major gpa email
                | sid]; simpl.
  - destruct (add_branch_cases db name age major gpa email)
      as [[_ ->] | [(_ & _ & ->) | (Hv & db' & Hadd & ->)]];
      simpl; auto.
    apply add_student_rows in Hadd as (i & Hi & _ & Hseq & ->).
    rewrite Hseq. apply Forall_app. split.
    + eapply Forall_impl; [| exact Hb]. simpl. intros; lia.
    + constructor; [simpl; lia | constructor].
  - destruct (update_branch_cases db sid name age major gpa email)
      as [[_ ->] | [(_ & _ & ->) | (_ & _ & ->)]];
      simpl; auto.
    rewrite Forall_forall in *. intros r Hr.
    apply in_map_iff in Hr as (r0 & <- & Hr0).
    specialize (Hb r0 Hr0).
    destruct (row_id r0 =? sid)%Z; simpl; assumption.
  - unfold delete_branch.
    destruct (id_in sid (view_students db)); simpl; auto.
    rewrite Forall_forall in *. intros r Hr.
    apply filter_In in Hr as [Hr _]. apply Hb, Hr.
Qed.

Lemma run_keeps_out (a : action) (db : database) (student_id : Z) :
  (student_id <= sqlite_sequence db)%Z ->
  ~ In student_id (ids (students db)) ->
  (student_id <= sqlite_sequence (fst (run db a)))%Z /\
  ~ In student_id (ids (students (fst (run db a)))).
Proof.
  unfold ids. intros Hle Hout.
  destruct a as [name age major gpa email
                | sid name age major gpa email
                | sid]; simpl.
  - destruct (add_branch_cases db name age major gpa email)
      as [[_ ->] | [(_ & _ & ->) | (Hv & db' & Hadd & ->)]];
      simpl; auto.
    apply add_student_rows in Hadd as (i & Hi & _ & Hseq & ->).
    rewrite Hseq. split; [lia |].
    rewrite map_app, in_app_iff. simpl. intros [H | [H | []]]; [auto | lia].
  - destruct (update_branch_cases db sid name age major gpa email)
      as [[_ ->] | [(_ & _ & ->) | (_ & _ & ->)]];
      simpl; auto.
    split; [assumption |].
    rewrite map_map. intro H. apply Hout.
    apply in_map_iff in H as (r0 & E & Hr0).
    apply in_map_iff. exists r0. split; [| assumption].
    destruct (row_id r0 =? sid)%Z; simpl in E; assumption.
  - unfold delete_branch.
    destruct (id_in sid (view_students db)); simpl; auto.
    split; [assumption |].
    intro H. apply Hout. apply in_map_iff in H as (r & E & Hr).
    apply filter_In in Hr as [Hr _].
    apply in_map_iff. eauto.
Qed.

Lemma run_all_keeps_out (actions : list action) :
  forall (db : database) (student_id : Z),
  (student_id <= sqlite_sequence db)%Z ->
  ~ In student_id (ids (students db)) ->
  ~ In student_id (ids (students (run_all db actions))).
Proof.
  induction actions as [|a actions IH]; intros db student_id Hle Hout.
  - exact Hout.
  - destruct (run_keeps_out a db student_id Hle Hout) as (Hle' & Hout').
    apply (IH _ _ Hle' Hout').
Qed.

Lemma reachable_ids_bounded (db : database) :
  reachable db -> ids_bounded db.
Proof.
  induction 1 as [| db a _ IH].
  - constructor.
  - apply run_ids_bounded, IH.
Qed.

Lemma search_students_sub (db : database) (query : str) (r : row) :
  In r (search_students db query) -> In r (view_students db).
Proof.
  unfold search_students. intro H. apply filter_In in H as [H _]. exact H.
Qed.

Lemma delete_student_ids (db : database) (student_id : Z) :
  ~ In student_id (ids (students (delete_student db student_id))).
Proof.
  unfold ids. simpl. intro H. apply in_map_iff in H as (r & E & Hr).
  apply filter_In in Hr as [_ Hr].
  apply negb_true_iff, Z.eqb_neq in Hr. contradiction.
Qed.

(** C5. Deleting a key no row has reports that the student was not found
    and changes nothing. Deleting a key some row has succeeds and removes
    that row and no other; from then on, whatever operations follow, neither
    the full listing nor any search returns a row with that key, and a
    second deletion of the same key reports that it was not found. *)
Theorem delete_removes_or_reports_not_found
    (db : database) (student_id : Z) :
  reachable db ->
  (~ In student_id (ids (view_students db)) ->
   delete_branch db student_id = (db, [st_error not_found])) /\
  (In student_id (ids (view_students db)) ->
   delete_branch db student_id =
     (delete_student db student_id, [st_success_deleted student_id]) /\
   delete_branch (delete_student db student_id) student_id =
     (delete_student db student_id, [st_error not_found]) /\
   (forall r, In r (view_students db) -> row_id r <> student_id ->
              In r (view_students (delete_student db student_id))) /\
   (forall r, In r (view_students (delete_student db student_id)) ->
              In r (view_students db)) /\
   forall (actions : list action) (query : str),
     ~ In student_id
         (ids (view_students
                 (run_all (delete_student db student_id) actions))) /\
     ~ In student_id
         (ids (search_students
                 (run_all (delete_student db student_id) actions) query))).
Proof.
  intro Hreach. split.
  - intro Hout. unfold delete_branch.
    apply id_in_false in Hout. unfold ids in *. rewrite Hout. reflexivity.
  - intro Hin.
    pose proof (delete_student_ids db student_id) as Hgone.
    split; [| split; [| split; [| split]]].
    + unfold delete_branch. apply id_in_spec in Hin. rewrite Hin. reflexivity.
    + unfold delete_branch.
      apply id_in_false in Hgone. unfold view_students. rewrite Hgone.
      reflexivity.
    + intros r Hr Hne. unfold view_students. simpl.
      apply filter_In. split; [exact Hr |].
      apply negb_true_iff, Z.eqb_neq. exact Hne.
    + intros r Hr. unfold view_students in *. simpl in Hr.
      apply filter_In in Hr as [Hr _]. exact Hr.
    + intros actions query.
      assert (Hlater :
        ~ In student_id
            (ids (students (run_all (delete_student db student_id) actions)))).
      { apply run_all_keeps_out; [| exact Hgone].
        simpl. apply reachable_ids_bounded in Hreach.
        unfold ids_bounded in Hreach. rewrite Forall_forall in Hreach.
        unfold ids, view_students in Hin.
        apply in_map_iff in Hin as (r & <- & Hr). apply Hreach, Hr. }
      split; [exact Hlater |].
      intro H. apply Hlater. unfold ids in *.
      apply in_map_iff in H as (r & E & Hr).
      apply search_students_sub in Hr. apply in_map_iff. eauto.
Qed.

Lemma delete_removes_or_reports_not_found_witness :
  delete_branch (fst (run empty_db
                        (AddStudent (py "Al B") 20 (py "CS") (Finite (7 # 2))
                                    (py "a@b.com")))) 1
  = (delete_student
       (fst (run empty_db
               (AddStudent (py "Al B") 20 (py "CS") (Finite (7 # 2))
                           (py "a@b.com")))) 1,
     [st_success_deleted 1]).
Proof.
  apply delete_removes_or_reports_not_found.
  - apply reach_step. apply reach_empty.
  - vm_compute. left. reflexivity.
Defined.

(** C6. Updating a key no row has reports that the student was not found.
    Updating a key some row has, with fields that pass validation, replaces
    all five fields of that row at once and touches no other row and no
    key; with fields that fail validation it reports the violations. The
    table after the branch is either the table before it or the table with
    the row fully replaced, and every report of an error comes with the
    table unchanged. *)
Theorem update_is_all_or_nothing (db : database) (student_id : Z)
    (name : str) (age : Z) (major : str) (gpa : pyfloat) (email : str) :
  (~ In student_id (ids (view_students db)) ->
   update_branch db student_id name age major gpa email =
     (db, [st_error not_found])) /\
  (In student_id (ids (view_students db)) ->
   validate_inputs name age gpa email <> [] ->
   update_branch db student_id name age major gpa email =
     (db, map st_error (validate_inputs name age gpa email))) /\
  (In student_id (ids (view_students db)) ->
   validate_inputs name age gpa email = [] ->
   update_branch db student_id name age major gpa email =
     (update_student db student_id name age major gpa email,
      [st_success_updated student_id]) /\
   In (mkrow student_id name age major gpa email)
      (view_students (update_student db student_id name age major gpa email)) /\
   ids (view_students (update_student db student_id name age major gpa email))
     = ids (view_students db) /\
   (forall r,
      In r (view_students
              (update_student db student_id name age major gpa email)) ->
      row_id r = student_id ->
      r = mkrow student_id name age major gpa email) /\
   (forall r, row_id r <> student_id ->
      (In r (view_students
               (update_student db student_id name age major gpa email)) <->
       In r (view_students db)))) /\
  (fst (update_branch db student_id name age major gpa email) = db \/
   fst (update_branch db student_id name age major gpa email) =
     update_student db student_id name age major gpa email) /\
  (forall msg,
     In (st_error msg)
        (snd (update_branch db student_id name age major gpa email)) ->
     fst (update_branch db student_id name age major gpa email) = db).
Proof.
  pose proof (update_branch_cases db student_id name age major gpa email)
    as Hcases.
  split; [| split; [| split; [| split]]].
  - intro Hout. apply id_in_false in Hout.
    destruct Hcases as [[_ E] | [(Hin & _) | (Hin & _)]];
      [exact E | |]; unfold ids in *; congruence.
  - intros Hin Hv. apply id_in_spec in Hin.
    destruct Hcases as [[Hout _] | [(_ & _ & E) | (_ & Hv' & _)]];
      [unfold ids in *; congruence | exact E | contradiction].
  - intros Hin Hv.
    split; [| split; [| split; [| split]]].
    + apply id_in_spec in Hin.
      destruct Hcases as [[Hout _] | [(_ & Hv' & _) | (_ & _ & E)]];
        [unfold ids in *; congruence | contradiction | exact E].
    + unfold view_students, ids in *. simpl.
      apply in_map_iff in Hin as (r & E & Hr).
      apply in_map_iff. exists r. split; [| exact Hr].
      rewrite <- E, Z.eqb_refl. reflexivity.
    + unfold view_students, ids. simpl. rewrite map_map.
      apply map_ext. intro r.
      destruct (row_id r =? student_id)%Z; reflexivity.
    + unfold view_students. simpl. intros r Hr E.
      apply in_map_iff in Hr as (r0 & <- & Hr0).
      destruct (row_id r0 =? student_id)%Z eqn:E0.
      * apply Z.eqb_eq in E0. rewrite E0. reflexivity.
      * apply Z.eqb_neq in E0. contradiction.
    + unfold view_students. simpl. intros r Hne. split.
      * intro Hr. apply in_map_iff in Hr as (r0 & <- & Hr0).
        destruct (row_id r0 =? student_id)%Z eqn:E0.
        -- simpl in Hne. apply Z.eqb_eq in E0. congruence.
        -- exact Hr0.
      * intro Hr. apply in_map_iff. exists r. split; [| exact Hr].
        apply Z.eqb_neq in Hne. rewrite Hne. reflexivity.
  - destruct Hcases as [[_ ->] | [(_ & _ & ->) | (_ & _ & ->)]];
      simpl; auto.
  - intros msg.
    destruct Hcases as [[_ ->] | [(_ & _ & ->) | (_ & _ & ->)]];
      simpl; auto.
    intros [H | []]. discriminate H.
Qed.

(* ================================================================== *)
(** * The classifier                                                   *)
(* ================================================================== *)

(** [train_and_predict] on ten or more rows: it raises only if [fit]
    does, and otherwise returns the frame with both columns added, the
    accuracy on the test part and the two importances. *)
Lemma train_and_predict_enough (sk : sklearn) (entropy : N) (df : frame) :
  (10 <= List.length (rows df))%nat ->
  match fit sk entropy (X_train sk df) (y_train sk df) with
  | None => train_and_predict sk entropy df = Raised
  | Some model =>
      train_and_predict sk entropy df =
        Returned
          (mkframe (rows df) (Some (labels_of df))
                   (Some (map (predict sk model) (features_of df))),
           Some (accuracy_score (y_test sk df)
                   (map (predict sk model) (X_test sk df))),
           Some (combine ["Age"%string; "GPA"%string]
                   (feature_importances_ sk model)))
  end.
Proof.
  intros Hlen.
  unfold train_and_predict, X_train, y_train, X_test, y_test,
    train_part, test_part.
  apply Nat.ltb_ge in Hlen. rewrite Hlen.
  unfold train_test_split. cbn [rows performance_column predicted_performance].
  unfold labels_of, features_of. rewrite !length_map.
  destruct (fit sk entropy _ _); reflexivity.
Qed.

(** What a result with an accuracy is made of. *)
Lemma train_and_predict_some (sk : sklearn) (entropy : N) (df df' : frame)
    (a : pyfloat) (fi : option importance_dict) :
  train_and_predict sk entropy df = Returned (df', Some a, fi) ->
  (10 <= List.length (rows df))%nat /\
  exists model,
    fit sk entropy (X_train sk df) (y_train sk df) = Some model /\
    df' = mkframe (rows df) (Some (labels_of df))
                  (Some (map (predict sk model) (features_of df))) /\
    a = accuracy_score (y_test sk df) (map (predict sk model) (X_test sk df)) /\
    fi = Some (combine ["Age"%string; "GPA"%string]
                 (feature_importances_ sk model)).
Proof.
  intro E.
  destruct (le_lt_dec 10 (List.length (rows df))) as [Hlen | Hlen].
  - split; [exact Hlen |].
    pose proof (train_and_predict_enough sk entropy df Hlen) as H.
    destruct (fit sk entropy _ _) as [model|]; rewrite H in E;
      [| discriminate E].
    injection E as <- <- <-. exists model. repeat split.
  - apply Nat.ltb_lt in Hlen. unfold train_and_predict in E.
    rewrite Hlen in E. discriminate E.
Qed.

(** C3. On fewer than ten rows [train_and_predict] returns the sentinel:
    the frame exactly as it came, and [None] for the accuracy and for the
    feature importance, whatever scikit-learn would do (no function of the
    library takes part in the result, and a frame read from the table comes
    without a prediction column). On ten or more rows it never returns the
    sentinel. *)
Theorem insufficient_data_iff_fewer_than_ten
    (sk : sklearn) (entropy : N) (df : frame) :
  ((List.length (rows df) < 10)%nat ->
   train_and_predict sk entropy df = Returned (df, None, None) /\
   (forall sk' entropy',
      train_and_predict sk' entropy' df = train_and_predict sk entropy df)) /\
  ((10 <= List.length (rows df))%nat ->
   ~ insufficient_data (train_and_predict sk entropy df)) /\
  (forall db,
     performance_column (read_frame db) = None /\
     predicted_performance (read_frame db) = None).
Proof.
  split; [| split].
  - intro Hlen. apply Nat.ltb_lt in Hlen.
    unfold train_and_predict. rewrite Hlen. split; reflexivity.
  - intros Hlen [df' E].
    pose proof (train_and_predict_enough sk entropy df Hlen) as H.
    destruct (fit sk entropy _ _); rewrite H in E; discriminate E.
  - intro db. split; reflexivity.
Qed.

(* ================================================================== *)
(** * Search                                                           *)
(* ================================================================== *)

Lemma like_percent (p s : str) :
  like (chr "%" :: p) s =
    like p s || match s with
                | [] => false
                | _ :: s' => like (chr "%" :: p) s'
                end.
Proof. destruct s; reflexivity. Qed.

Lemma like_literal (c : char) (p s : str) :
  c <> chr "%" ->
  like (c :: p) s =
    match s with
    | [] => false
    | d :: s' => like_char c d && like p s'
    end.
Proof.
  intro Hc. simpl. unfold is_char.
  destruct (N.eqb_spec c (chr "%")) as [E | _]; [contradiction | reflexivity].
Qed.













(* ================================================================== *)
(** * Splitting, fitting and scoring                                   *)
(* ================================================================== *)

Lemma take_indices_map {A B : Type} (f : A -> B) (a : list A)
    (indices : list nat) :
  take_indices (map f a) indices = map f (take_indices a indices).
Proof.
  unfold take_indices.
  induction indices as [|i indices IH]; simpl; [reflexivity |].
  rewrite map_app, IH, nth_error_map.
  destruct (nth_error a i); reflexivity.
Qed.

Lemma take_indices_seq (n : nat) (indices : list nat) :
  Forall (fun i => (i < n)%nat) indices ->
  take_indices (seq 0 n) indices = indices.
Proof.
  unfold take_indices.
  induction 1 as [|i indices Hi _ IH]; simpl; [reflexivity |].
  rewrite IH, nth_error_seq.
  apply Nat.ltb_lt in Hi. rewrite Hi. reflexivity.
Qed.

Lemma take_indices_length {A : Type} (a : list A) (indices : list nat) :
  Forall (fun i => (i < List.length a)%nat) indices ->
  List.length (take_indices a indices) = List.length indices.
Proof.
  unfold take_indices.
  induction 1 as [|i indices Hi _ IH]; simpl; [reflexivity |].
  rewrite length_app, IH.
  apply nth_error_Some in Hi. destruct (nth_error a i); [reflexivity | congruence].
Qed.

Lemma In_take_indices {A : Type} (a : list A) (indices : list nat) (x : A) :
  In x (take_indices a indices) ->
  exists i, In i indices /\ nth_error a i = Some x.
Proof.
  unfold take_indices. rewrite in_flat_map.
  intros (i & Hi & Hx). exists i. split; [exact Hi |].
  destruct (nth_error a i); simpl in Hx; [| contradiction].
  destruct Hx as [-> | []]. reflexivity.
Qed.

Lemma NoDup_app_disjoint {A : Type} (l1 l2 : list A) (x : A) :
  NoDup (l1 ++ l2) -> In x l1 -> ~ In x l2.
Proof.
  induction l1 as [|a l1 IH]; simpl; intros Hnd Hin; [contradiction |].
  inversion Hnd as [| ? ? Hnotin Hnd']; subst.
  destruct Hin as [-> | Hin].
  - intro H. apply Hnotin. apply in_or_app. right. exact H.
  - apply IH; assumption.
Qed.

(** The two parts of a shuffled order: in range, disjoint, and of the
    sizes [n_test n] and [n - n_test n]. *)
Lemma split_parts (order : list nat) (n : nat) :
  Permutation order (seq 0 n) ->
  Forall (fun i => (i < n)%nat) (firstn (n_test n) order) /\
  Forall (fun i => (i < n)%nat) (skipn (n_test n) order) /\
  (forall i, In i (firstn (n_test n) order) ->
             ~ In i (skipn (n_test n) order)) /\
  List.length (firstn (n_test n) order) = Nat.min (n_test n) n /\
  List.length (skipn (n_test n) order) = (n - n_test n)%nat.
Proof.
  intro Hperm.
  assert (Hlen : List.length order = n)
    by (rewrite (Permutation_length Hperm); apply length_seq).
  assert (Hrange : forall i, In i order -> (i < n)%nat).
  { intros i Hi. apply (Permutation_in _ Hperm), in_seq in Hi. lia. }
  assert (Hnd : NoDup order).
  { apply (Permutation_NoDup (Permutation_sym Hperm)), seq_NoDup. }
  pose proof (firstn_skipn (n_test n) order) as Hsplit.
  repeat split.
  - apply Forall_forall. intros i Hi. apply Hrange.
    rewrite <- Hsplit. apply in_or_app. left. exact Hi.
  - apply Forall_forall. intros i Hi. apply Hrange.
    rewrite <- Hsplit. apply in_or_app. right. exact Hi.
  - intros i Hi. rewrite <- Hsplit in Hnd.
    apply (NoDup_app_disjoint _ _ _ Hnd Hi).
  - rewrite length_firstn, Hlen. reflexivity.
  - rewrite length_skipn, Hlen. reflexivity.
Qed.

Lemma n_test_bounds (n : nat) :
  (10 <= n)%nat -> (1 <= n_test n)%nat /\ (n_test n < n)%nat.
Proof.
  intro H. unfold n_test. split.
  - apply Nat.div_le_lower_bound; lia.
  - apply Nat.Div0.div_lt_upper_bound; lia.
Qed.

Lemma count_agree_le (y_true y_pred : list label) :
  (count_agree y_true y_pred <= List.length y_true)%nat.
Proof.
  revert y_pred. induction y_true as [|a t IH]; intros [|b p]; simpl; try lia.
  specialize (IH p). destruct (label_eqb a b); lia.
Qed.

(** An accuracy over a non-empty test part is a fraction between 0 and 1. *)
Lemma accuracy_score_range (y_true y_pred : list label) :
  y_true <> [] ->
  exists a : Q, accuracy_score y_true y_pred = Finite a /\ 0 <= a /\ a <= 1.
Proof.
  intro Hne. unfold accuracy_score.
  destruct y_true as [|l t] eqn:E; [congruence |]. rewrite <- E.
  eexists. split; [reflexivity |].
  pose proof (count_agree_le y_true y_pred) as Hle.
  assert (Hpos : Z.pos (Pos.of_nat (List.length y_true))
                 = Z.of_nat (List.length y_true)).
  { rewrite <- positive_nat_Z, Nat2Pos.id; [reflexivity |].
    subst y_true. simpl. discriminate. }
  unfold Qle. simpl. rewrite Hpos. split; lia.
Qed.

Lemma valid_row_storable (r : row) :
  valid_row r -> storable (row_age r, row_gpa r).
Proof.
  unfold valid_row. rewrite validate_inputs_nil.
  intros (_ & Hage & (q & Hq & H0 & H4) & _).
  unfold storable, age_in_range in *. simpl. split.
  - assert (100 <= 2 ^ 127)%Z by (vm_compute; discriminate). lia.
  - exists q. split; [exact Hq |].
    rewrite Qabs_pos by exact H0.
    apply (Qle_trans _ 4); [exact H4 |]. vm_compute. discriminate.
Qed.

(** On ten or more valid rows both parts of the split are non-empty and
    [fit] returns a tree. *)
Lemma fit_on_valid_rows (sk : sklearn) (entropy : N) (df : frame) :
  sklearn_laws sk ->
  (10 <= List.length (rows df))%nat ->
  Forall valid_row (rows df) ->
  y_train sk df <> [] /\ y_test sk df <> [] /\
  exists model, fit sk entropy (X_train sk df) (y_train sk df) = Some model.
Proof.
  intros Hlaws Hlen Hvalid.
  destruct (split_parts _ _ (permutation_shuffles sk Hlaws (List.length (rows df))))
    as (Htest & Htrain & _ & Ltest & Ltrain).
  destruct (n_test_bounds _ Hlen) as [Hlo Hhi].
  assert (Lfeat : List.length (features_of df) = List.length (rows df))
    by apply length_map.
  assert (Llab : List.length (labels_of df) = List.length (rows df))
    by apply length_map.
  assert (Lytrain : List.length (y_train sk df)
                    = (List.length (rows df) - n_test (List.length (rows df)))%nat).
  { unfold y_train, train_part.
    rewrite take_indices_length; [exact Ltrain | rewrite Llab; exact Htrain]. }
  assert (Lxtrain : List.length (X_train sk df)
                    = (List.length (rows df) - n_test (List.length (rows df)))%nat).
  { unfold X_train, train_part.
    rewrite take_indices_length; [exact Ltrain | rewrite Lfeat; exact Htrain]. }
  assert (Lytest : List.length (y_test sk df)
                   = Nat.min (n_test (List.length (rows df)))
                             (List.length (rows df))).
  { unfold y_test, test_part.
    rewrite take_indices_length; [exact Ltest | rewrite Llab; exact Htest]. }
  split; [| split].
  - intro E. rewrite E in Lytrain. simpl in Lytrain. lia.
  - intro E. rewrite E in Lytest. simpl in Lytest. lia.
  - destruct (fit sk entropy (X_train sk df) (y_train sk df)) as [model|] eqn:E;
      [exists model; reflexivity | exfalso].
    revert E. apply (fit_returns sk Hlaws).
    + intro E. rewrite E in Lxtrain. simpl in Lxtrain. lia.
    + congruence.
    + apply Forall_forall. intros x Hx.
      apply In_take_indices in Hx as (i & _ & Hi).
      apply nth_error_In in Hi. unfold features_of in Hi.
      apply in_map_iff in Hi as (r & <- & Hr).
      rewrite Forall_forall in Hvalid.
      apply valid_row_storable, Hvalid, Hr.
Qed.

(** What classification returns on ten or more valid rows, given the laws
    of the library. *)
Lemma classification_on_valid_rows (sk : sklearn) (entropy : N) (df : frame) :
  sklearn_laws sk ->
  (10 <= List.length (rows df))%nat ->
  Forall valid_row (rows df) ->
  exists (df' : frame) (accuracy age_weight gpa_weight : Q),
    train_and_predict sk entropy df =
      Returned (df', Some (Finite accuracy),
                Some [("Age"%string, Finite age_weight);
                      ("GPA"%string, Finite gpa_weight)]) /\
    0 <= accuracy /\ accuracy <= 1 /\
    0 <= age_weight /\ 0 <= gpa_weight /\
    (Qabs (age_weight + gpa_weight - 1) <= tolerance \/
     (age_weight == 0 /\ gpa_weight == 0)) /\
    ((exists l, forall r, In r (rows df) -> performance (row_gpa r) = l) ->
     age_weight == 0 /\ gpa_weight == 0).
Proof.
  intros Hlaws Hlen Hvalid.
  destruct (fit_on_valid_rows sk entropy df Hlaws Hlen Hvalid)
    as (Hytrain & Hytest & model & Hfit).
  pose proof (train_and_predict_enough sk entropy df Hlen) as Hrun.
  rewrite Hfit in Hrun.
  destruct (accuracy_score_range _ (map (predict sk model) (X_test sk df)) Hytest)
    as (a & Ha & Ha0 & Ha1).
  destruct (importances_normalised sk Hlaws _ _ _ _ Hfit)
    as (w1 & w2 & Hw & Hw1 & Hw2 & Hsum).
  rewrite Ha, Hw in Hrun. simpl combine in Hrun.
  eexists _, a, w1, w2. split; [exact Hrun |].
  repeat (split; [assumption |]).
  intros [l Hl].
  assert (Hpure : Forall (eq l) (y_train sk df)).
  { apply Forall_forall. intros y Hy.
    apply In_take_indices in Hy as (i & _ & Hi).
    apply nth_error_In in Hi. unfold labels_of in Hi.
    apply in_map_iff in Hi as (r & <- & Hr).
    symmetry. apply Hl, Hr. }
  destruct (pure_root_is_leaf sk Hlaws _ _ _ _ _ Hfit Hytrain Hpure) as [_ Hzero].
  rewrite Hw in Hzero.
  inversion Hzero as [| ? ? Hz1 Hz]; subst.
  inversion Hz as [| ? ? Hz2 _]; subst.
  simpl in Hz1, Hz2. apply Qeq_bool_iff in Hz1, Hz2. split; assumption.
Qed.

Lemma all_same_spec (y : list label) (l : label) :
  y <> [] -> Forall (eq l) y -> all_same y = Some l.
Proof.
  intros Hne Hy. destruct y as [|l0 rest]; [congruence |].
  inversion Hy as [| ? ? E Hrest]; subst. simpl.
  assert (H : forallb (label_eqb l0) rest = true).
  { apply forallb_forall. intros x Hx. rewrite Forall_forall in Hrest.
    rewrite <- (Hrest x Hx). destruct l0; reflexivity. }
  rewrite H. reflexivity.
Qed.

(** The stump learner meets the laws. *)
Lemma stump_learner_laws : sklearn_laws stump_learner.
Proof.
  constructor.
  - intro n. apply Permutation_refl.
  - intros entropy X y _ _ _. discriminate.
  - intros entropy X y model l Hfit Hne Hy. simpl in Hfit.
    rewrite (all_same_spec _ _ Hne Hy) in Hfit. injection Hfit as <-.
    split; [reflexivity |]. repeat constructor.
  - intros entropy X y model Hfit. simpl.
    destruct model.
    + exists 0, 0. repeat split; try apply Qle_refl. right. split; reflexivity.
    + exists 0, 1. repeat split; try (vm_compute; discriminate).
      left. vm_compute. discriminate.
Qed.

Lemma ten_rows_valid (gpa_at : nat -> pyfloat) :
  (forall i, gpa_in_range (gpa_at i)) ->
  Forall valid_row (ten_rows gpa_at).
Proof.
  intro Hg. apply Forall_forall. intros r Hr.
  apply in_map_iff in Hr as (i & <- & _).
  unfold valid_row. apply validate_inputs_nil. simpl.
  repeat split; try (vm_compute; congruence).
  - unfold name_long_enough. vm_compute. lia.
  - apply Hg.
Qed.

Lemma ten_high_valid : Forall valid_row (students ten_high).
Proof.
  apply ten_rows_valid. intros _. exists (7 # 2).
  repeat split; vm_compute; discriminate.
Qed.

(** C4, as the source has it. On ten or more valid rows, and given the
    documented behaviour of scikit-learn, classification returns without
    raising; the accuracy lies in [0,1]; the feature importance has the
    two entries Age and GPA, both non-negative, which sum to 1.0 up to the
    tolerance unless both are 0.0; and when all rows carry a single label
    both are 0.0. *)
Theorem classification_metrics (sk : sklearn) (entropy : N) (df : frame) :
  sklearn_laws sk ->
  (10 <= List.length (rows df))%nat ->
  Forall valid_row (rows df) ->
  exists (df' : frame) (accuracy age_weight gpa_weight : Q),
    train_and_predict sk entropy df =
      Returned (df', Some (Finite accuracy),
                Some [("Age"%string, Finite age_weight);
                      ("GPA"%string, Finite gpa_weight)]) /\
    0 <= accuracy /\ accuracy <= 1 /\
    0 <= age_weight /\ 0 <= gpa_weight /\
    (Qabs (age_weight + gpa_weight - 1) <= tolerance \/
     (age_weight == 0 /\ gpa_weight == 0)) /\
    ((exists l, forall r, In r (rows df) -> performance (row_gpa r) = l) ->
     age_weight == 0 /\ gpa_weight == 0).
Proof. apply classification_on_valid_rows. Qed.

Lemma classification_metrics_witness :
  exists (df' : frame) (accuracy age_weight gpa_weight : Q),
    train_and_predict stump_learner 0 (read_frame ten_high) =
      Returned (df', Some (Finite accuracy),
                Some [("Age"%string, Finite age_weight);
                      ("GPA"%string, Finite gpa_weight)]) /\
    0 <= accuracy /\ accuracy <= 1.
Proof.
  destruct (classification_metrics stump_learner 0 (read_frame ten_high)
              stump_learner_laws)
    as (df' & a & w1 & w2 & E & H0 & H1 & _).
  - simpl. lia.
  - exact ten_high_valid.
  - exists df', a, w1, w2. auto.
Defined.

(** C4 as stated fails where all rows carry a single label: for ten
    valid students who all have a GPA of 3.5 the two importances are 0.0,
    and their sum is not 1.0. *)
Lemma single_label_importances_do_not_sum_to_one :
  (10 <= List.length (rows (read_frame ten_high)))%nat /\
  Forall valid_row (rows (read_frame ten_high)) /\
  forall (sk : sklearn) (entropy : N),
    sklearn_laws sk ->
    exists (df' : frame) (accuracy : pyfloat) (age_weight gpa_weight : Q),
      train_and_predict sk entropy (read_frame ten_high) =
        Returned (df', Some accuracy,
                  Some [("Age"%string, Finite age_weight);
                        ("GPA"%string, Finite gpa_weight)]) /\
      age_weight + gpa_weight == 0 /\
      ~ Qabs (age_weight + gpa_weight - 1) <= tolerance.
Proof.
  split; [simpl; lia |]. split; [exact ten_high_valid |].
  intros sk entropy Hlaws.
  destruct (classification_on_valid_rows sk entropy (read_frame ten_high) Hlaws)
    as (df' & a & w1 & w2 & E & _ & _ & _ & _ & _ & Hdeg).
  - simpl. lia.
  - exact ten_high_valid.
  - destruct Hdeg as [Hw1 Hw2].
    { exists HighPerformer. intros r Hr. simpl in Hr.
      repeat (destruct Hr as [<- | Hr]; [reflexivity |]). contradiction. }
    exists df', (Finite a), w1, w2. split; [exact E |].
    assert (Hsum : w1 + w2 == 0) by (rewrite Hw1, Hw2; reflexivity).
    split; [exact Hsum |].
    rewrite Hsum. vm_compute. intro H. apply H. reflexivity.
Qed.

(* ================================================================== *)
(** * The ML Recommendations branch                                    *)
(* ================================================================== *)

Lemma max_rowid_bound (l : list row) (m : Z) :
  (0 <= m)%Z -> Forall (fun r => (row_id r <= m)%Z) l ->
  (max_rowid l <= m)%Z.
Proof.
  intros Hm. induction 1 as [|r l Hr _ IH]; simpl; lia.
Qed.

(** Rows submitted one after the other through the add form are in the
    table with the keys 1, 2, 3, ... *)
Lemma added_rows_reachable (gpa_at : nat -> pyfloat) :
  (forall i, gpa_in_range (gpa_at i)) ->
  forall n : nat,
    (Z.of_nat n < MAX_ROWID)%Z ->
    reachable
      (mkdb (map (fun i => sample_row (Z.of_nat i + 1) (gpa_at i)) (seq 0 n))
            (Z.of_nat n)).
Proof.
  intros Hg. induction n as [|n IH]; intro Hn.
  - exact reach_empty.
  - assert (Hn' : (Z.of_nat n < MAX_ROWID)%Z) by lia.
    specialize (IH Hn').
    set (db := mkdb (map (fun i => sample_row (Z.of_nat i + 1) (gpa_at i))
                         (seq 0 n)) (Z.of_nat n)) in *.
    pose proof (reach_step db
                  (AddStudent (py "Al B") 20 (py "CS") (gpa_at n) (py "a@b.com"))
                  IH) as Hstep.
    assert (Hv : validate_inputs (py "Al B") 20 (gpa_at n) (py "a@b.com") = []).
    { apply validate_inputs_nil. repeat split; try (vm_compute; congruence).
      - unfold name_long_enough. vm_compute. lia.
      - apply Hg. }
    assert (Hmax : (max_rowid (students db) <= Z.of_nat n)%Z).
    { apply max_rowid_bound; [lia |]. apply Forall_forall. intros r Hr.
      simpl in Hr. apply in_map_iff in Hr as (i & <- & Hi).
      apply in_seq in Hi. simpl. lia. }
    simpl run in Hstep. unfold add_branch in Hstep. rewrite Hv in Hstep.
    unfold add_student in Hstep.
    replace (Z.max (sqlite_sequence db) (max_rowid (students db)))
      with (Z.of_nat n) in Hstep by (simpl sqlite_sequence; lia).
    destruct (Z.eqb_spec (Z.of_nat n) MAX_ROWID) as [E | _]; [lia |].
    simpl fst in Hstep.
    rewrite seq_S, map_app. simpl map.
    replace (Z.of_nat (S n)) with (Z.of_nat n + 1)%Z by lia.
    exact Hstep.
Qed.

Lemma count_agree_none (y_true y_pred : list label) :
  Forall (eq HighPerformer) y_true ->
  Forall (eq NeedsImprovement) y_pred ->
  count_agree y_true y_pred = 0%nat.
Proof.
  intros Ht. revert y_pred.
  induction Ht as [|a t <- _ IH]; intros y_pred Hp; [reflexivity |].
  destruct Hp as [|b p <- Hp]; [reflexivity |].
  simpl. apply IH, Hp.
Qed.

(** An accuracy of 0.0 fails the truth test of the branch just as [None]
    does. *)
Lemma ml_branch_zero_accuracy (sk : sklearn) (entropy : N) (db : database)
    (df' : frame) (a : Q) (fi : option importance_dict) :
  view_students db <> [] ->
  train_and_predict sk entropy (read_frame db)
    = Returned (df', Some (Finite a), fi) ->
  a == 0 ->
  ml_branch sk entropy db = [st_info not_enough_data].
Proof.
  intros Hne Hrun Ha. unfold ml_branch. rewrite Hrun.
  change (rows (read_frame db)) with (view_students db).
  destruct (view_students db); [congruence |].
  apply Qeq_bool_iff in Ha. simpl. rewrite Ha. reflexivity.
Qed.

(** Ten valid students, split so that the two the shuffle holds out are the
    only ones with a GPA of 3.0 or more: the tree sees one label, predicts
    it for everyone, and is wrong on both held-out students. *)
Lemma held_out_high_performers (sk : sklearn) (entropy : N) :
  sklearn_laws sk ->
  exists (df' : frame) (a : Q) (fi : importance_dict),
    train_and_predict sk entropy (read_frame (ten_split (test_part sk 10)))
      = Returned (df', Some (Finite a), Some fi) /\
    a == 0.
Proof.
  intro Hlaws.
  set (h := test_part sk 10).
  set (g := fun i => if existsb (Nat.eqb i) h then Finite (7 # 2) else Finite 2).
  set (df := read_frame (ten_split h)).
  assert (Hrows : rows df = ten_rows g) by reflexivity.
  assert (Hlen : (10 <= List.length (rows df))%nat) by (simpl; lia).
  assert (Hlen10 : List.length (rows df) = 10%nat) by reflexivity.
  assert (Hvalid : Forall valid_row (rows df)).
  { rewrite Hrows. apply ten_rows_valid. intro i. unfold g.
    destruct (existsb (Nat.eqb i) h); eexists;
      (split; [reflexivity | split; vm_compute; discriminate]). }
  destruct (split_parts _ _ (permutation_shuffles sk Hlaws 10))
    as (Htest & Htrain & Hdisj & Ltest & _).
  fold (test_part sk 10) in Htest, Hdisj, Ltest. fold h in Htest, Hdisj, Ltest.
  fold (train_part sk 10) in Htrain, Hdisj.
  assert (Hlabels : labels_of df = map (fun i => performance (g i)) (seq 0 10)).
  { unfold labels_of. rewrite Hrows. unfold ten_rows. rewrite map_map.
    reflexivity. }
  assert (Hytest : y_test sk df = map (fun _ => HighPerformer) h).
  { unfold y_test. rewrite Hlen10, Hlabels, take_indices_map.
    fold h. rewrite take_indices_seq by exact Htest.
    apply map_ext_in. intros i Hi. unfold g.
    assert (E : existsb (Nat.eqb i) h = true).
    { apply existsb_exists. exists i. split; [exact Hi | apply Nat.eqb_refl]. }
    rewrite E. reflexivity. }
  assert (Hytrain : Forall (eq NeedsImprovement) (y_train sk df)).
  { unfold y_train. rewrite Hlen10, Hlabels, take_indices_map.
    rewrite take_indices_seq by exact Htrain.
    apply Forall_forall. intros y Hy.
    apply in_map_iff in Hy as (i & <- & Hi). unfold g.
    assert (E : existsb (Nat.eqb i) h = false).
    { destruct (existsb (Nat.eqb i) h) eqn:E; [| reflexivity].
      apply existsb_exists in E as (j & Hj & Eij).
      apply Nat.eqb_eq in Eij. subst j.
      exfalso. exact (Hdisj i Hj Hi). }
    rewrite E. reflexivity. }
  destruct (fit_on_valid_rows sk entropy df Hlaws Hlen Hvalid)
    as (Hne_train & Hne_test & model & Hfit).
  destruct (pure_root_is_leaf sk Hlaws _ _ _ _ _ Hfit Hne_train Hytrain)
    as [Hpredict _].
  destruct (importances_normalised sk Hlaws _ _ _ _ Hfit)
    as (w1 & w2 & Hw & _).
  pose proof (train_and_predict_enough sk entropy df Hlen) as Hrun.
  rewrite Hfit in Hrun.
  assert (Hcount :
    count_agree (y_test sk df) (map (predict sk model) (X_test sk df)) = 0%nat).
  { apply count_agree_none.
    - rewrite Hytest. apply Forall_forall. intros y Hy.
      apply in_map_iff in Hy as (i & <- & _). reflexivity.
    - apply Forall_forall. intros y Hy.
      apply in_map_iff in Hy as (x & <- & _). symmetry. apply Hpredict. }
  unfold accuracy_score in Hrun. rewrite Hcount in Hrun.
  destruct (y_test sk df) as [|l t] eqn:Et; [congruence |].
  eexists _, _, _. split; [exact Hrun |].
  reflexivity.
Qed.

(** C10. Given the documented behaviour of scikit-learn, there is a table
    of ten valid students, reachable through the add form, on which the
    accuracy over the held-out students is exactly 0.0; and on every
    non-empty table where the accuracy is 0.0 the branch shows the
    not-enough-data message instead of the predictions, because its test
    of the accuracy is a truth test, which 0.0 fails just as [None]
    does. *)
Theorem zero_accuracy_is_reported_as_not_enough_data
    (sk : sklearn) (entropy : N) :
  sklearn_laws sk ->
  (exists db : database,
     reachable db /\
     (10 <= List.length (view_students db))%nat /\
     (exists (df' : frame) (a : Q) (fi : importance_dict),
        train_and_predict sk entropy (read_frame db)
          = Returned (df', Some (Finite a), Some fi) /\
        a == 0) /\
     ml_branch sk entropy db = [st_info not_enough_data]) /\
  (forall (db : database) (df' : frame) (a : Q)
          (fi : option importance_dict),
     view_students db <> [] ->
     train_and_predict sk entropy (read_frame db)
       = Returned (df', Some (Finite a), fi) ->
     a == 0 ->
     ml_branch sk entropy db = [st_info not_enough_data]) /\
  accuracy_truthy (Some (Finite 0)) = accuracy_truthy None.
Proof.
  intro Hlaws. split; [| split].
  - exists (ten_split (test_part sk 10)).
    destruct (held_out_high_performers sk entropy Hlaws)
      as (df' & a & fi & Hrun & Ha).
    split; [| split; [| split]].
    + apply (added_rows_reachable
               (fun i => if existsb (Nat.eqb i) (test_part sk 10)
                         then Finite (7 # 2) else Finite 2)).
      * intro i. destruct (existsb (Nat.eqb i) (test_part sk 10)); eexists;
          (split; [reflexivity | split; vm_compute; discriminate]).
      * vm_compute. reflexivity.
    + simpl. lia.
    + exists df', a, fi. split; assumption.
    + apply (ml_branch_zero_accuracy sk entropy _ df' a (Some fi)).
      * discriminate.
      * exact Hrun.
      * exact Ha.
  - intros db df' a fi. apply ml_branch_zero_accuracy.
  - reflexivity.
Qed.

Lemma zero_accuracy_is_reported_as_not_enough_data_witness :
  exists db : database,
    reachable db /\
    (10 <= List.length (view_students db))%nat /\
    ml_branch stump_learner 0 db = [st_info not_enough_data].
Proof.
  destruct (zero_accuracy_is_reported_as_not_enough_data stump_learner 0
              stump_learner_laws)
    as [(db & Hreach & Hlen & _ & Hml) _].
  exists db. auto.
Defined.

(** C7. The label of a row is [HighPerformer] exactly when its GPA is at
    least 3.0, the bound included, and [NeedsImprovement] otherwise (a NaN
    is not at least 3.0). The table has no column for it: a frame read from
    the table carries no labels. On ten or more rows, whenever [fit]
    returns a tree, [train_and_predict] returns the frame with the
    [performance] column set to the label of the GPA each row has at that
    moment; with the documented behaviour of scikit-learn this is so for
    every table of ten or more valid rows; and no result with an accuracy
    carries any other labels. *)
Theorem performance_label_from_current_gpa
    (sk : sklearn) (entropy : N) (db : database) :
  (forall q : Q, performance (Finite q) = HighPerformer <-> 3 <= q) /\
  (forall q : Q, performance (Finite q) = NeedsImprovement <-> q < 3) /\
  performance (Finite 3) = HighPerformer /\
  performance PosInf = HighPerformer /\
  performance NegInf = NeedsImprovement /\
  performance NaN = NeedsImprovement /\
  performance_column (read_frame db) = None /\
  (forall df' accuracy importance,
     train_and_predict sk entropy (read_frame db)
       = Returned (df', Some accuracy, importance) ->
     rows df' = view_students db /\
     performance_column df'
       = Some (map (fun r => performance (row_gpa r)) (view_students db))) /\
  (forall model,
     (10 <= List.length (view_students db))%nat ->
     fit sk entropy (X_train sk (read_frame db)) (y_train sk (read_frame db))
       = Some model ->
     exists df' accuracy importance,
       train_and_predict sk entropy (read_frame db)
         = Returned (df', Some accuracy, Some importance) /\
       rows df' = view_students db /\
       performance_column df'
         = Some (map (fun r => performance (row_gpa r)) (view_students db))) /\
  (sklearn_laws sk ->
   (10 <= List.length (view_students db))%nat ->
   Forall valid_row (view_students db) ->
   exists df' accuracy importance,
     train_and_predict sk entropy (read_frame db)
       = Returned (df', Some accuracy, Some importance) /\
     rows df' = view_students db /\
     performance_column df'
       = Some (map (fun r => performance (row_gpa r)) (view_students db))).
Proof.
  assert (Hq : forall q : Q, performance (Finite q) = HighPerformer <-> 3 <= q).
  { intro q. unfold performance, fge. simpl.
    rewrite <- Qle_bool_iff. destruct (Qle_bool 3 q); split; congruence. }
  assert (Hfit : forall model,
     (10 <= List.length (view_students db))%nat ->
     fit sk entropy (X_train sk (read_frame db)) (y_train sk (read_frame db))
       = Some model ->
     exists df' accuracy importance,
       train_and_predict sk entropy (read_frame db)
         = Returned (df', Some accuracy, Some importance) /\
       rows df' = view_students db /\
       performance_column df'
         = Some (map (fun r => performance (row_gpa r)) (view_students db))).
  { intros model Hlen Hmodel.
    pose proof (train_and_predict_enough sk entropy (read_frame db) Hlen) as H.
    rewrite Hmodel in H. eexists _, _, _. split; [exact H |].
    split; reflexivity. }
  split; [exact Hq |].
  split.
  { intro q.
    assert (H3 : q < 3 <-> ~ 3 <= q)
      by (split; [apply Qlt_not_le | apply Qnot_le_lt]).
    rewrite H3, <- Hq.
    destruct (performance (Finite q)); split; congruence. }
  split; [reflexivity |]. split; [reflexivity |].
  split; [reflexivity |]. split; [reflexivity |].
  split; [reflexivity |].
  split.
  { intros df' accuracy importance E.
    apply train_and_predict_some in E as (_ & model & _ & -> & _).
    split; reflexivity. }
  split; [exact Hfit |].
  intros Hlaws Hlen Hvalid.
  destruct (fit_on_valid_rows sk entropy (read_frame db) Hlaws Hlen Hvalid)
    as (_ & _ & model & Hmodel).
  apply (Hfit model Hlen Hmodel).
Qed.

Lemma performance_label_from_current_gpa_witness :
  exists df' accuracy importance,
    train_and_predict stump_learner 0 (read_frame (ten_split [0; 1]%nat))
      = Returned (df', Some accuracy, Some importance) /\
    performance_column df'
      = Some ([HighPerformer; HighPerformer]
              ++ repeat NeedsImprovement 8).
Proof.
  destruct (performance_label_from_current_gpa stump_learner 0
              (ten_split [0; 1]%nat))
    as (_ & _ & _ & _ & _ & _ & _ & _ & _ & H).
  destruct H as (df' & accuracy & importance & E & _ & Hcol).
  - exact stump_learner_laws.
  - simpl. lia.
  - apply ten_rows_valid. intro i.
    destruct (existsb (Nat.eqb i) [0; 1]%nat); eexists;
      (split; [reflexivity | split; vm_compute; discriminate]).
  - exists df', accuracy, importance. split; [exact E |].
    rewrite Hcol. vm_compute. reflexivity.
Defined.

(* ================================================================== *)
(** * More about the table                                             *)
(* ================================================================== *)

Lemma ids_map_update (l : list row) (student_id : Z)
    (name : str) (age : Z) (major : str) (gpa : pyfloat) (email : str) :
  ids (map (fun r => if (row_id r =? student_id)%Z
                     then mkrow (row_id r) name age major gpa email
                     else r) l) = ids l.
Proof.
  unfold ids. rewrite map_map. apply map_ext. intro r.
  destruct (row_id r =? student_id)%Z; reflexivity.
Qed.

Lemma StronglySorted_snoc (l : list Z) (x : Z) :
  StronglySorted Z.lt l -> Forall (fun y => (y < x)%Z) l ->
  StronglySorted Z.lt (l ++ [x]).
Proof.
  induction 1 as [|a l Hs IH Ha]; intro Hx; simpl.
  - constructor; constructor.
  - inversion Hx as [| ? ? Hax Hx']; subst.
    constructor; [apply IH; assumption |].
    apply Forall_app. split; [assumption |]. constructor; [assumption | constructor].
Qed.

Lemma StronglySorted_ids_filter (f : row -> bool) (l : list row) :
  StronglySorted Z.lt (ids l) -> StronglySorted Z.lt (ids (filter f l)).
Proof.
  unfold ids. induction l as [|r l IH]; simpl; intro H; [constructor |].
  inversion H as [| ? ? Hs Hr]; subst.
  destruct (f r); simpl; [constructor |]; try (apply IH; assumption).
  rewrite Forall_forall in *. intros y Hy. apply Hr.
  apply in_map_iff in Hy as (r0 & <- & Hr0).
  apply filter_In in Hr0 as [Hr0 _]. apply in_map. exact Hr0.
Qed.

(** The keys of a reachable table: in increasing order, from 1 up to the
    counter. *)
Lemma reachable_keys (db : database) :
  reachable db ->
  StronglySorted Z.lt (ids (students db)) /\
  Forall (fun i => (1 <= i <= sqlite_sequence db)%Z) (ids (students db)) /\
  (0 <= sqlite_sequence db)%Z.
Proof.
  induction 1 as [| db a _ (Hs & Hb & H0)].
  - repeat split; try constructor. simpl. lia.
  - destruct a as [name age major gpa email
                  | sid name age major gpa email
                  | sid]; simpl.
    + destruct (add_branch_cases db name age major gpa email)
        as [[_ ->] | [(_ & _ & ->) | (Hv & db' & Hadd & ->)]];
        simpl; auto.
      apply add_student_rows in Hadd as (i & Hi & _ & Hseq & ->).
      rewrite Hseq. unfold ids in *. rewrite map_app. simpl.
      repeat split.
      * apply StronglySorted_snoc; [assumption |].
        eapply Forall_impl; [| exact Hb]. simpl. intros; lia.
      * apply Forall_app. split.
        -- eapply Forall_impl; [| exact Hb]. simpl. intros; lia.
        -- constructor; [lia | constructor].
      * lia.
    + destruct (update_branch_cases db sid name age major gpa email)
        as [[_ ->] | [(_ & _ & ->) | (_ & _ & ->)]];
        simpl; auto.
      rewrite ids_map_update. auto.
    + unfold delete_branch.
      destruct (id_in sid (view_students db)); simpl; auto.
      repeat split.
      * apply StronglySorted_ids_filter. assumption.
      * unfold ids in *. rewrite Forall_forall in *. intros y Hy.
        apply Hb. apply in_map_iff in Hy as (r & <- & Hr).
        apply filter_In in Hr as [Hr _]. apply in_map. exact Hr.
      * assumption.
Qed.

Lemma StronglySorted_lt_NoDup (l : list Z) :
  StronglySorted Z.lt l -> NoDup l.
Proof.
  induction 1 as [|a l _ IH Ha]; constructor; [| assumption].
  intro Hin. rewrite Forall_forall in Ha. specialize (Ha a Hin). lia.
Qed.

(** X1. In every table the operations can produce, the keys are listed in
    strictly increasing order, so no two rows share a key; every key is at
    least 1 and at most the counter SQLite keeps for the table. *)
Theorem reachable_keys_increasing (db : database) :
  reachable db ->
  StronglySorted Z.lt (ids (view_students db)) /\
  NoDup (ids (view_students db)) /\
  Forall (fun i => (1 <= i <= sqlite_sequence db)%Z) (ids (view_students db)).
Proof.
  intro H. destruct (reachable_keys db H) as (Hs & Hb & _).
  unfold view_students. repeat split; try assumption.
  apply StronglySorted_lt_NoDup, Hs.
Qed.

Lemma reachable_keys_increasing_witness :
  NoDup (ids (view_students (run_all empty_db [a_valid_student; a_valid_student]))).
Proof.
  apply reachable_keys_increasing.
  apply (reach_step (fst (run empty_db a_valid_student)) a_valid_student).
  apply reach_step. apply reach_empty.
Defined.

Lemma reachable_max_rowid (db : database) :
  reachable db ->
  Z.max (sqlite_sequence db) (max_rowid (students db)) = sqlite_sequence db.
Proof.
  intro H. destruct (reachable_keys db H) as (_ & Hb & H0).
  apply Z.max_l. apply max_rowid_bound; [assumption |].
  unfold ids in Hb. rewrite Forall_forall in *. intros r Hr.
  apply (Hb (row_id r)), in_map, Hr.
Qed.

Lemma add_branch_success (db : database)
    (name : str) (age : Z) (major : str) (gpa : pyfloat) (email : str) :
  reachable db ->
  validate_inputs name age gpa email = [] ->
  (sqlite_sequence db < MAX_ROWID)%Z ->
  add_branch db name age major gpa email =
    (mkdb (students db
           ++ [mkrow (sqlite_sequence db + 1) name age major gpa email])
          (sqlite_sequence db + 1),
     [st_success_added name]).
Proof.
  intros Hreach Hv Hfull. unfold add_branch, add_student.
  rewrite Hv, (reachable_max_rowid db Hreach).
  destruct (Z.eqb_spec (sqlite_sequence db) MAX_ROWID) as [E | _]; [lia |].
  reflexivity.
Qed.

(** X2. Adding a student whose fields pass validation, to a table whose
    counter has not reached the largest key, appends exactly one row to
    the listing: it holds the submitted fields unchanged under the key
    counter + 1, which is larger than every key in the table; the rows that
    were there stay as they were, in place, and the page shows the success
    message. *)
Theorem add_appends_row_with_next_key (db : database)
    (name : str) (age : Z) (major : str) (gpa : pyfloat) (email : str) :
  reachable db ->
  validate_inputs name age gpa email = [] ->
  (sqlite_sequence db < MAX_ROWID)%Z ->
  view_students (fst (run db (AddStudent name age major gpa email))) =
    view_students db
    ++ [mkrow (sqlite_sequence db + 1) name age major gpa email] /\
  snd (run db (AddStudent name age major gpa email)) =
    [st_success_added name] /\
  sqlite_sequence (fst (run db (AddStudent name age major gpa email))) =
    (sqlite_sequence db + 1)%Z /\
  Forall (fun i => (i < sqlite_sequence db + 1)%Z) (ids (view_students db)).
Proof.
  intros Hreach Hv Hfull. simpl run.
  rewrite (add_branch_success db name age major gpa email Hreach Hv Hfull).
  repeat split.
  destruct (reachable_keys db Hreach) as (_ & Hb & _).
  eapply Forall_impl; [| exact Hb]. simpl. intros; lia.
Qed.

Lemma add_appends_row_with_next_key_witness :
  view_students (fst (run empty_db a_valid_student)) =
    [mkrow 1 (py "Al B") 20 (py "CS") (Finite (7 # 2)) (py "a@b.com")].
Proof.
  apply (add_appends_row_with_next_key empty_db).
  - apply reach_empty.
  - vm_compute. reflexivity.
  - vm_compute. reflexivity.
Defined.

Lemma filter_all {A : Type} (f : A -> bool) (l : list A) :
  (forall x, In x l -> f x = true) -> filter f l = l.
Proof.
  induction l as [|a l IH]; simpl; intro H; [reflexivity |].
  rewrite (H a) by auto. f_equal. apply IH. auto.
Qed.


(** X3. After a successful add, deleting the new key gives back exactly
    the rows that were there before, but not the counter: the key is spent,
    and the next student added gets the key after it. *)
Theorem add_then_delete_spends_the_key (db : database)
    (name : str) (age : Z) (major : str) (gpa : pyfloat) (email : str) :
  reachable db ->
  validate_inputs name age gpa email = [] ->
  (sqlite_sequence db + 1 < MAX_ROWID)%Z ->
  run_all db [AddStudent name age major gpa email;
              DeleteStudent (sqlite_sequence db + 1)]
    = mkdb (students db) (sqlite_sequence db + 1) /\
  view_students
    (run_all db [AddStudent name age major gpa email;
                 DeleteStudent (sqlite_sequence db + 1);
                 AddStudent name age major gpa email])
    = view_students db
      ++ [mkrow (sqlite_sequence db + 2) name age major gpa email].
Proof.
  intros Hreach Hv Hfull.
  assert (Hfull' : (sqlite_sequence db < MAX_ROWID)%Z) by lia.
  pose proof (add_branch_success db name age major gpa email Hreach Hv Hfull')
    as Hadd.
  destruct (reachable_keys db Hreach) as (_ & Hb & _).
  assert (Hold : forall r, In r (students db) ->
                 negb (row_id r =? sqlite_sequence db + 1)%Z = true).
  { intros r Hr. apply negb_true_iff, Z.eqb_neq.
    unfold ids in Hb. rewrite Forall_forall in Hb.
    specialize (Hb (row_id r) (in_map _ _ _ Hr)). lia. }
  assert (Hdel :
    run_all db [AddStudent name age major gpa email;
                DeleteStudent (sqlite_sequence db + 1)]
    = mkdb (students db) (sqlite_sequence db + 1)).
  { unfold run_all. simpl fold_left. rewrite Hadd. simpl fst.
    unfold delete_branch, view_students, id_in. simpl students.
    rewrite existsb_app. simpl existsb. rewrite Z.eqb_refl, orb_true_r.
    simpl. unfold delete_student. simpl.
    rewrite filter_app, (filter_all _ _ Hold). simpl.
    rewrite Z.eqb_refl. simpl. rewrite app_nil_r. reflexivity. }
  split; [exact Hdel |].
  change (run_all db [AddStudent name age major gpa email;
                      DeleteStudent (sqlite_sequence db + 1);
                      AddStudent name age major gpa email])
    with (fst (run (run_all db [AddStudent name age major gpa email;
                                DeleteStudent (sqlite_sequence db + 1)])
                   (AddStudent name age major gpa email))).
  assert (Hreach' : reachable
                      (run_all db [AddStudent name age major gpa email;
                                   DeleteStudent (sqlite_sequence db + 1)])).
  { change (reachable
              (fst (run (fst (run db (AddStudent name age major gpa email)))
                        (DeleteStudent (sqlite_sequence db + 1))))).
    apply reach_step, reach_step, Hreach. }
  rewrite Hdel in *. unfold run.
  rewrite (add_branch_success _ name age major gpa email Hreach' Hv)
    by exact Hfull.
  unfold view_students. simpl. do 3 f_equal. lia.
Qed.

Lemma add_then_delete_spends_the_key_witness :
  run_all empty_db [a_valid_student; DeleteStudent 1] = mkdb [] 1.
Proof.
  apply (add_then_delete_spends_the_key empty_db).
  - apply reach_empty.
  - vm_compute. reflexivity.
  - vm_compute. reflexivity.
Defined.

(** X4. In a table the operations can produce, deleting a key that is
    there removes exactly one row, the one with that key, and leaves the
    rows before and after it as they were, in the same order. *)
Theorem delete_removes_exactly_one_row (db : database) (student_id : Z) :
  reachable db ->
  In student_id (ids (view_students db)) ->
  exists before r after,
    view_students db = before ++ r :: after /\
    row_id r = student_id /\
    view_students (fst (run db (DeleteStudent student_id))) = before ++ after.
Proof.
  intros Hreach Hin.
  destruct (reachable_keys db Hreach) as (Hs & _ & _).
  apply StronglySorted_lt_NoDup in Hs.
  unfold view_students, ids in *.
  apply in_map_iff in Hin as (r & Hid & Hr).
  apply in_split in Hr as (before & after & Hsplit).
  exists before, r, after. split; [exact Hsplit |]. split; [exact Hid |].
  simpl run. unfold delete_branch, view_students.
  assert (Hfound : id_in student_id (students db) = true).
  { apply id_in_spec. rewrite Hsplit, map_app, in_app_iff. simpl. auto. }
  rewrite Hfound. simpl. rewrite Hsplit in *.
  rewrite map_app in Hs. simpl in Hs.
  apply NoDup_remove_2 in Hs.
  rewrite filter_app. simpl. rewrite Hid, Z.eqb_refl. simpl.
  rewrite !filter_all; [reflexivity | |];
    intros x Hx; apply negb_true_iff, Z.eqb_neq; intro E;
    apply Hs; rewrite in_app_iff; [right | left];
    rewrite Hid, <- E; apply in_map; exact Hx.
Qed.

Lemma delete_removes_exactly_one_row_witness :
  exists before r after,
    view_students (fst (run empty_db a_valid_student)) = before ++ r :: after /\
    row_id r = 1%Z /\
    view_students
      (fst (run (fst (run empty_db a_valid_student)) (DeleteStudent 1)))
      = before ++ after.
Proof.
  apply delete_removes_exactly_one_row.
  - apply reach_step, reach_empty.
  - vm_compute. left. reflexivity.
Defined.

(** X5. Called with a key no row has, [update_student] and
    [delete_student] leave the table exactly as it was, rows and counter:
    the statements match no row and nothing is reported (it is the branch
    that reports the missing key). *)
Theorem crud_on_missing_key_changes_nothing (db : database) (student_id : Z)
    (name : str) (age : Z) (major : str) (gpa : pyfloat) (email : str) :
  ~ In student_id (ids (view_students db)) ->
  update_student db student_id name age major gpa email = db /\
  delete_student db student_id = db.
Proof.
  unfold view_students, ids. intro Hout.
  assert (Hne : forall r, In r (students db) ->
                          (row_id r =? student_id)%Z = false).
  { intros r Hr. apply Z.eqb_neq. intro E. apply Hout.
    rewrite <- E. apply in_map. exact Hr. }
  destruct db as [l seq]. unfold update_student, delete_student. simpl in *.
  split; f_equal.
  - rewrite <- (map_id l) at 2. apply map_ext_in. intros r Hr.
    rewrite (Hne r Hr). reflexivity.
  - apply filter_all. intros r Hr. rewrite (Hne r Hr). reflexivity.
Qed.

Lemma crud_on_missing_key_changes_nothing_witness :
  update_student one_student 7 (py "Bo C") 30 (py "EE") (Finite 3)
    (py "b@c.org") = one_student /\
  delete_student one_student 7 = one_student.
Proof.
  apply crud_on_missing_key_changes_nothing.
  simpl. intros [H | []]. discriminate H.
Defined.

(** X6. Of two updates of the same key the second one wins: the table is
    as if only the second had been made; in particular an update made twice
    is the update made once. *)
Theorem update_last_write_wins (db : database) (student_id : Z)
    (name1 name2 : str) (age1 age2 : Z) (major1 major2 : str)
    (gpa1 gpa2 : pyfloat) (email1 email2 : str) :
  update_student
    (update_student db student_id name1 age1 major1 gpa1 email1)
    student_id name2 age2 major2 gpa2 email2
  = update_student db student_id name2 age2 major2 gpa2 email2.
Proof.
  unfold update_student. simpl. f_equal.
  rewrite map_map. apply map_ext. intro r.
  destruct (row_id r =? student_id)%Z eqn:E; simpl; rewrite E; reflexivity.
Qed.

(** X7. Deletions commute with each other, and an update commutes with a
    deletion, whatever the keys: the order in which two such statements run
    does not change the table. *)
Theorem delete_commutes (db : database) (a b : Z)
    (name : str) (age : Z) (major : str) (gpa : pyfloat) (email : str) :
  delete_student (delete_student db a) b
    = delete_student (delete_student db b) a /\
  delete_student (update_student db a name age major gpa email) b
    = update_student (delete_student db b) a name age major gpa email.
Proof.
  unfold delete_student, update_student. simpl. split; f_equal.
  - induction (students db) as [|r l IH]; simpl; [reflexivity |].
    destruct (row_id r =? a)%Z eqn:Ea; destruct (row_id r =? b)%Z eqn:Eb;
      simpl; rewrite ?Ea, ?Eb; simpl; rewrite ?IH; reflexivity.
  - induction (students db) as [|r l IH]; simpl; [reflexivity |].
    destruct (row_id r =? a)%Z eqn:Ea; destruct (row_id r =? b)%Z eqn:Eb;
      simpl; rewrite ?Ea, ?Eb; simpl; rewrite ?Ea, ?IH; reflexivity.
Qed.

Lemma run_sequence_grows (db : database) (a : action) :
  (sqlite_sequence db <= sqlite_sequence (fst (run db a)))%Z.
Proof.
  destruct a as [name age major gpa email
                | sid name age major gpa email
                | sid]; simpl.
  - destruct (add_branch_cases db name age major gpa email)
      as [[_ ->] | [(_ & _ & ->) | (Hv & db' & Hadd & ->)]];
      simpl; try lia.
    apply add_student_rows in Hadd as (i & Hi & _ & Hseq & _).
    rewrite Hseq. lia.
  - destruct (update_branch_cases db sid name age major gpa email)
      as [[_ ->] | [(_ & _ & ->) | (_ & _ & ->)]];
      unfold update_student; simpl; lia.
  - unfold delete_branch, delete_student.
    destruct (id_in sid (view_students db)); simpl; lia.
Qed.

(** X8. The counter of handed-out keys never goes down, whatever
    operations run: a key given to a student is larger than every key given
    before, also to students deleted since. *)
Theorem sequence_never_decreases (db : database) (actions : list action) :
  (sqlite_sequence db <= sqlite_sequence (run_all db actions))%Z.
Proof.
  revert db. induction actions as [|a actions IH]; intro db.
  - simpl. lia.
  - change (run_all db (a :: actions))
      with (run_all (fst (run db a)) actions).
    pose proof (run_sequence_grows db a).
    specialize (IH (fst (run db a))). lia.
Qed.

(** X9. Every writing branch shows either one success message, or only
    error messages (or the exception); in the second case the table is
    exactly as it was before. *)
Theorem failed_operation_changes_nothing (db : database) (a : action) :
  (exists o, snd (run db a) = [o] /\ is_success o) \/
  (fst (run db a) = db /\ snd (run db a) <> [] /\
   Forall is_failure (snd (run db a))).
Proof.
  destruct a as [name age major gpa email
                | sid name age major gpa email
                | sid]; simpl.
  - destruct (add_branch_cases db name age major gpa email)
      as [[Hv ->] | [(_ & _ & ->) | (_ & db' & _ & ->)]]; simpl.
    + right. split; [reflexivity |]. split.
      * destruct (validate_inputs name age gpa email); [congruence | discriminate].
      * apply Forall_forall. intros o Ho.
        apply in_map_iff in Ho as (m & <- & _). exact I.
    + right. repeat split; [discriminate | repeat constructor].
    + left. eexists. split; [reflexivity | exact I].
  - destruct (update_branch_cases db sid name age major gpa email)
      as [[_ ->] | [(_ & Hv & ->) | (_ & _ & ->)]]; simpl.
    + right. repeat split; [discriminate | repeat constructor].
    + right. split; [reflexivity |]. split.
      * destruct (validate_inputs name age gpa email); [congruence | discriminate].
      * apply Forall_forall. intros o Ho.
        apply in_map_iff in Ho as (m & <- & _). exact I.
    + left. eexists. split; [reflexivity | exact I].
  - unfold delete_branch.
    destruct (id_in sid (view_students db)); simpl.
    + left. eexists. split; [reflexivity | exact I].
    + right. repeat split; [discriminate | repeat constructor].
Qed.

(* ================================================================== *)
(** * More about the search                                            *)
(* ================================================================== *)













Lemma ascii_lower_cases (c : char) :
  (65 <= c <= 90 /\ ascii_lower c = c + 32)%N \/
  ((c < 65 \/ 90 < c)%N /\ ascii_lower c = c).
Proof.
  unfold ascii_lower, between. change (chr "A") with 65%N.
  change (chr "Z") with 90%N.
  destruct (N.leb_spec 65 c); destruct (N.leb_spec c 90); simpl;
    [left | right | right | right]; split; try reflexivity; lia.
Qed.

Lemma ascii_lower_idem (c : char) :
  ascii_lower (ascii_lower c) = ascii_lower c.
Proof.
  destruct (ascii_lower_cases c) as [[Hc E] | [Hc E]]; rewrite E.
  - destruct (ascii_lower_cases (c + 32)%N) as [[Hc' _] | [_ E']];
      [lia | exact E'].
  - exact E.
Qed.

Lemma is_char_lower (a : ascii) (c : char) :
  (chr a < 65 \/ 122 < chr a \/ 90 < chr a < 97)%N ->
  is_char a (ascii_lower c) = is_char a c.
Proof.
  intro Ha. unfold is_char.
  destruct (ascii_lower_cases c) as [[Hc E] | [Hc E]]; rewrite E;
    [| reflexivity].
  destruct (N.eqb_spec (c + 32)%N (chr a)); destruct (N.eqb_spec c (chr a));
    try reflexivity; lia.
Qed.

Lemma like_char_lower (p c : char) :
  like_char (ascii_lower p) c = like_char p c /\
  like_char p (ascii_lower c) = like_char p c.
Proof.
  unfold like_char. rewrite !ascii_lower_idem.
  rewrite (is_char_lower "_") by (change (chr "_") with 95%N; lia).
  split; reflexivity.
Qed.

Lemma like_percent_ext (p q : str) :
  (forall s, like p s = like q s) ->
  forall s, like (chr "%" :: p) s = like (chr "%" :: q) s.
Proof.
  intros H s. induction s as [|d s IH].
  - rewrite (like_percent p []), (like_percent q []), H. reflexivity.
  - rewrite (like_percent p (d :: s)), (like_percent q (d :: s)), H, IH.
    reflexivity.
Qed.

(** The pattern is read without regard to ASCII case. *)
Lemma like_lower_pattern (p : str) : forall s : str,
  like (map ascii_lower p) s = like p s.
Proof.
  induction p as [|c p IH]; intro s; [reflexivity |].
  simpl map. destruct (N.eqb_spec c (chr "%")) as [-> | Hc].
  - change (ascii_lower (chr "%")) with (chr "%").
    apply like_percent_ext, IH.
  - assert (Hc' : ascii_lower c <> chr "%").
    { intro E. apply Hc.
      pose proof (is_char_lower "%" c) as H. unfold is_char in H.
      rewrite E, N.eqb_refl in H. symmetry in H.
      apply N.eqb_eq, H. change (chr "%") with 37%N. lia. }
    rewrite !like_literal by assumption.
    destruct s as [|d s]; [reflexivity |].
    rewrite IH, (proj1 (like_char_lower c d)). reflexivity.
Qed.

(** The text is read without regard to ASCII case. *)
Lemma like_lower_text (p : str) : forall s : str,
  like p (map ascii_lower s) = like p s.
Proof.
  induction p as [|c p IH]; intro s.
  - destruct s; reflexivity.
  - destruct (N.eqb_spec c (chr "%")) as [-> | Hc].
    + induction s as [|d s IHs].
      * reflexivity.
      * simpl map.
        rewrite (like_percent p (ascii_lower d :: map ascii_lower s)).
        rewrite (like_percent p (d :: s)).
        rewrite IHs. change (ascii_lower d :: map ascii_lower s)
          with (map ascii_lower (d :: s)). rewrite IH. reflexivity.
    + rewrite !like_literal by assumption.
      destruct s as [|d s]; [reflexivity |].
      simpl map. cbv iota.
      rewrite IH, (proj2 (like_char_lower c d)). reflexivity.
Qed.

(** X13. The search does not see ASCII case: two queries that differ
    only in the case of ASCII letters return the same rows, and a query
    matches a text exactly when it matches any text that differs from it
    only in the case of ASCII letters. *)
Theorem search_ignores_ascii_case (db : database) (q1 q2 : str) :
  map ascii_lower q1 = map ascii_lower q2 ->
  search_students db q1 = search_students db q2 /\
  (forall s1 s2, map ascii_lower s1 = map ascii_lower s2 ->
     like (py "%" ++ q1 ++ py "%") s1 = like (py "%" ++ q2 ++ py "%") s2).
Proof.
  intro Hq.
  assert (H : forall s1 s2, map ascii_lower s1 = map ascii_lower s2 ->
     like (py "%" ++ q1 ++ py "%") s1 = like (py "%" ++ q2 ++ py "%") s2).
  { intros s1 s2 Hs.
    rewrite <- (like_lower_pattern (py "%" ++ q1 ++ py "%")).
    rewrite <- (like_lower_pattern (py "%" ++ q2 ++ py "%")).
    rewrite !map_app, Hq.
    rewrite <- (like_lower_text _ s1), <- (like_lower_text _ s2), Hs.
    reflexivity. }
  split; [| exact H].
  unfold search_students. apply filter_ext. intro r.
  rewrite (H (row_name r) (row_name r)), (H (row_major r) (row_major r));
    reflexivity.
Qed.

Lemma search_ignores_ascii_case_witness :
  search_students one_student (py "AL b") = search_students one_student (py "al B").
Proof.
  apply search_ignores_ascii_case. vm_compute. reflexivity.
Defined.

(* ================================================================== *)
(** * More about validation                                            *)
(* ================================================================== *)

Lemma class_excludes (cls : char -> bool) (x : char) (s : str) :
  cls x = false -> forallb cls s = true -> ~ In x s.
Proof.
  intros Hx Hs Hin. rewrite forallb_forall in Hs.
  rewrite (Hs x Hin) in Hx. discriminate.
Qed.

Lemma count_occ_absent (x : char) (s : str) :
  ~ In x s -> count_occ N.eq_dec s x = 0%nat.
Proof. apply count_occ_not_In. Qed.

(** X14. An address [validate_email] accepts has exactly one [@], holds
    no space, and is at least six characters long. *)
Theorem accepted_email_has_one_at (email : str) :
  validate_email email = true ->
  count_occ N.eq_dec email (chr "@") = 1%nat /\
  ~ In (chr " ") email /\
  (6 <= List.length email)%nat.
Proof.
  intro H. apply validate_email_shape in H
    as (l & d & t & n & -> & Hl & Hl' & Hd & Hd' & Ht & Ht' & Hn).
  assert (Hn_at : ~ In (chr "@") n)
    by (destruct Hn as [-> | ->]; simpl; [tauto | intros [E | []]; discriminate E]).
  assert (Hn_sp : ~ In (chr " ") n)
    by (destruct Hn as [-> | ->]; simpl; [tauto | intros [E | []]; discriminate E]).
  split; [| split].
  - pose proof (class_excludes local_class (chr "@") l eq_refl Hl').
    pose proof (class_excludes domain_class (chr "@") d eq_refl Hd').
    pose proof (class_excludes alpha_class (chr "@") t eq_refl Ht').
    rewrite !count_occ_app.
    rewrite (count_occ_absent _ l), (count_occ_absent _ d),
      (count_occ_absent _ t), (count_occ_absent _ n) by assumption.
    reflexivity.
  - rewrite !in_app_iff. simpl.
    pose proof (class_excludes local_class (chr " ") l eq_refl Hl').
    pose proof (class_excludes domain_class (chr " ") d eq_refl Hd').
    pose proof (class_excludes alpha_class (chr " ") t eq_refl Ht').
    intros [? | [[E | []] | [? | [[E | []] | [? | ?]]]]];
      try discriminate E; tauto.
  - rewrite !length_app. simpl.
    destruct l; [congruence |]. destruct d; [congruence |]. simpl. lia.
Qed.

Lemma accepted_email_has_one_at_witness :
  count_occ N.eq_dec (py "a@b.com") (chr "@") = 1%nat.
Proof.
  apply accepted_email_has_one_at. vm_compute. reflexivity.
Defined.

(** X15. [validate_email] accepts exactly the strings made of a local
    part of one or more characters from [a-zA-Z0-9._%+-], an [@], a domain
    of one or more characters from the class the source spells
    ([a-z], [A-z], [)-9], [.], [-]), a dot, two or more ASCII letters, and
    at most one newline after them. *)
Theorem validate_email_accepts_exactly (email : str) :
  validate_email email = true <->
  exists local domain tld newline,
    email = local ++ [chr "@"] ++ domain ++ [chr "."] ++ tld ++ newline /\
    local <> [] /\ forallb local_class local = true /\
    domain <> [] /\ forallb domain_class domain = true /\
    (2 <= List.length tld)%nat /\ forallb alpha_class tld = true /\
    (newline = [] \/ newline = [chr "010"]).
Proof. apply validate_email_shape. Qed.

Lemma lstrip_spaces (pad s : str) :
  forallb isspace pad = true -> lstrip (pad ++ s) = lstrip s.
Proof.
  induction pad as [|c pad IH]; simpl; intro H; [reflexivity |].
  apply andb_true_iff in H as [Hc Hpad]. rewrite Hc. apply IH, Hpad.
Qed.

Lemma lstrip_all_spaces (pad : str) :
  forallb isspace pad = true -> lstrip pad = [].
Proof.
  intro H. rewrite <- (app_nil_r pad). rewrite lstrip_spaces by exact H.
  reflexivity.
Qed.

Lemma rstrip_spaces (s pad : str) :
  forallb isspace pad = true -> rstrip (s ++ pad) = rstrip s.
Proof.
  intro H. unfold rstrip. rewrite rev_app_distr, lstrip_spaces; [reflexivity |].
  rewrite forallb_forall in *. intros c Hc. apply H, in_rev, Hc.
Qed.

Lemma lstrip_app (s t : str) :
  lstrip (s ++ t) = if forallb isspace s then lstrip t else lstrip s ++ t.
Proof.
  induction s as [|c s IH]; simpl; [reflexivity |].
  destruct (isspace c); simpl; [exact IH | reflexivity].
Qed.

(** Whitespace around a text does not change what [strip] gives. *)
Lemma strip_padding (before s after : str) :
  forallb isspace before = true -> forallb isspace after = true ->
  strip (before ++ s ++ after) = strip s.
Proof.
  intros Hb Ha. unfold strip. rewrite lstrip_spaces by exact Hb.
  rewrite lstrip_app. destruct (forallb isspace s) eqn:Es.
  - rewrite (lstrip_all_spaces after Ha), (lstrip_all_spaces s Es). reflexivity.
  - apply rstrip_spaces, Ha.
Qed.

(** X16. Whitespace typed before or after the name does not change the
    outcome of validation: the padded name gives exactly the violations
    the name itself gives. *)
Theorem name_padding_does_not_matter (before name after : str)
    (age : Z) (gpa : pyfloat) (email : str) :
  forallb isspace before = true -> forallb isspace after = true ->
  validate_inputs (before ++ name ++ after) age gpa email
    = validate_inputs name age gpa email.
Proof.
  intros Hb Ha. rewrite !validate_inputs_reports. f_equal. f_equal.
  apply eq_true_iff_eq. rewrite !name_rule. unfold name_long_enough.
  rewrite (strip_padding before name after Hb Ha). reflexivity.
Qed.

Lemma name_padding_does_not_matter_witness :
  validate_inputs (py "  " ++ py "A" ++ py " ") 20 (Finite 3) (py "a@b.com")
    = validate_inputs (py "A") 20 (Finite 3) (py "a@b.com").
Proof.
  apply name_padding_does_not_matter; vm_compute; reflexivity.
Defined.

(** X17. Every row of a table the operations can produce meets the
    constraints of the form: a name of two or more characters once trimmed,
    an age from 18 to 100, a finite GPA from 0.0 to 4.0 (never a NaN), and
    an email with exactly one [@]. *)
Theorem reachable_rows_meet_constraints (db : database) :
  reachable db ->
  Forall (fun r =>
            name_long_enough (row_name r) /\
            age_in_range (row_age r) /\
            gpa_in_range (row_gpa r) /\
            count_occ N.eq_dec (row_email r) (chr "@") = 1%nat)
         (view_students db).
Proof.
  intro H. apply reachable_rows_valid in H. unfold view_students.
  eapply Forall_impl; [| exact H]. intros r Hr.
  unfold valid_row in Hr. apply validate_inputs_nil in Hr
    as (Hn & Ha & Hg & He).
  split; [exact Hn |]. split; [exact Ha |]. split; [exact Hg |].
  apply validate_email_shape in He
    as (l & d & t & n & -> & _ & Hl' & _ & Hd' & _ & Ht' & Hn').
  assert (Hn_at : ~ In (chr "@") n)
    by (destruct Hn' as [-> | ->]; simpl; [tauto | intros [E | []]; discriminate E]).
  pose proof (class_excludes local_class (chr "@") l eq_refl Hl').
  pose proof (class_excludes domain_class (chr "@") d eq_refl Hd').
  pose proof (class_excludes alpha_class (chr "@") t eq_refl Ht').
  rewrite !count_occ_app.
  rewrite (count_occ_absent _ l), (count_occ_absent _ d),
    (count_occ_absent _ t), (count_occ_absent _ n) by assumption.
  reflexivity.
Qed.

Lemma reachable_rows_meet_constraints_witness :
  Forall (fun r =>
            name_long_enough (row_name r) /\
            age_in_range (row_age r) /\
            gpa_in_range (row_gpa r) /\
            count_occ N.eq_dec (row_email r) (chr "@") = 1%nat)
         (view_students (fst (run empty_db a_valid_student))).
Proof.
  apply reachable_rows_meet_constraints.
  apply reach_step, reach_empty.
Defined.

(* ================================================================== *)
(** * More about the classifier                                        *)
(* ================================================================== *)

Lemma take_indices_app {A : Type} (a : list A) (i1 i2 : list nat) :
  take_indices a (i1 ++ i2) = take_indices a i1 ++ take_indices a i2.
Proof. unfold take_indices. apply flat_map_app. Qed.

Lemma take_indices_from {A : Type} (l : list A) : forall pre : list A,
  take_indices (pre ++ l) (seq (List.length pre) (List.length l)) = l.
Proof.
  induction l as [|a l IH]; intro pre; [reflexivity |].
  simpl List.length. simpl seq. unfold take_indices. simpl flat_map.
  rewrite nth_error_app2, Nat.sub_diag by lia. simpl. f_equal.
  specialize (IH (pre ++ [a])).
  rewrite <- app_assoc, length_app, Nat.add_1_r in IH. exact IH.
Qed.

Lemma take_indices_all {A : Type} (l : list A) :
  take_indices l (seq 0 (List.length l)) = l.
Proof. apply (take_indices_from l []). Qed.

Lemma nth_error_combine {A B : Type} (X : list A) : forall (y : list B) (i : nat),
  nth_error (combine X y) i =
    match nth_error X i, nth_error y i with
    | Some a, Some b => Some (a, b)
    | _, _ => None
    end.
Proof.
  induction X as [|a X IH]; intros y i.
  - destruct i; reflexivity.
  - destruct y as [|b y]; destruct i as [|i]; simpl; try reflexivity.
    + destruct (nth_error X i); reflexivity.
    + apply IH.
Qed.

Lemma combine_take_indices {A B : Type} (X : list A) (y : list B)
    (indices : list nat) :
  combine (take_indices X indices) (take_indices y indices)
    = take_indices (combine X y) indices \/
  ~ Forall (fun i => (i < List.length X)%nat /\ (i < List.length y)%nat) indices.
Proof.
  induction indices as [|i indices IH]; [left; reflexivity |].
  unfold take_indices in *. simpl flat_map.
  destruct (nth_error X i) as [a|] eqn:Ea.
  - destruct (nth_error y i) as [b|] eqn:Eb.
    + destruct IH as [IH | IH].
      * left. rewrite nth_error_combine, Ea, Eb. simpl. f_equal. exact IH.
      * right. intro H. inversion H; subst. contradiction.
    + right. intro H. inversion H as [| ? ? [_ Hi] _]; subst.
      apply nth_error_Some in Hi. contradiction.
  - right. intro H. inversion H as [| ? ? [Hi _] _]; subst.
    apply nth_error_Some in Hi. contradiction.
Qed.

Lemma n_test_is_ceiling (n : nat) :
  (n <= 5 * n_test n)%nat /\ (5 * n_test n < n + 5)%nat.
Proof.
  unfold n_test. pose proof (Nat.div_mod_eq (n + 4) 5) as E.
  pose proof (Nat.mod_upper_bound (n + 4) 5). lia.
Qed.

(** X18. Given that the shuffle is a permutation of the positions,
    [train_test_split] deals every sample to exactly one of the two parts:
    the test part gets one sample in five, rounded up, the training part
    the others; together they are the samples that came in, and every
    sample keeps its own label. *)
Theorem train_test_split_partitions (sk : sklearn) {A B : Type}
    (X X_train X_test : list A) (y y_train y_test : list B) :
  List.length X = List.length y ->
  Permutation (permutation sk (List.length X)) (seq 0 (List.length X)) ->
  train_test_split sk X y = (X_train, X_test, y_train, y_test) ->
  List.length X_test = n_test (List.length X) /\
  List.length X_train = (List.length X - n_test (List.length X))%nat /\
  (List.length X <= 5 * List.length X_test < List.length X + 5)%nat /\
  List.length y_test = List.length X_test /\
  List.length y_train = List.length X_train /\
  Permutation (X_test ++ X_train) X /\
  Permutation (combine X_test y_test ++ combine X_train y_train)
              (combine X y).
Proof.
  intros Hlen Hperm Hsplit. unfold train_test_split in Hsplit.
  injection Hsplit as <- <- <- <-.
  set (n := List.length X) in *.
  set (order := permutation sk n) in *.
  destruct (split_parts order n Hperm) as (Htest & Htrain & _ & Ltest & Ltrain).
  destruct (n_test_is_ceiling n) as [Hceil1 Hceil2].
  assert (Hmin : Nat.min (n_test n) n = n_test n) by lia.
  assert (Htest_y : Forall (fun i => (i < List.length y)%nat)
                      (firstn (n_test n) order)) by (rewrite <- Hlen; exact Htest).
  assert (Htrain_y : Forall (fun i => (i < List.length y)%nat)
                       (skipn (n_test n) order)) by (rewrite <- Hlen; exact Htrain).
  assert (Hall : forall (C : Type) (l : list C), List.length l = n ->
            Permutation (take_indices l (firstn (n_test n) order)
                         ++ take_indices l (skipn (n_test n) order)) l).
  { intros C l Hl. rewrite <- take_indices_app, firstn_skipn.
    rewrite <- (take_indices_all l) at 2. rewrite Hl.
    unfold take_indices. apply Permutation_flat_map, Hperm. }
  assert (Hpair : forall idx, Forall (fun i => (i < n)%nat) idx ->
            combine (take_indices X idx) (take_indices y idx)
            = take_indices (combine X y) idx).
  { intros idx Hidx. destruct (combine_take_indices X y idx) as [E | E];
      [exact E | exfalso]. apply E.
    eapply Forall_impl; [| exact Hidx]. simpl. fold n. intros; lia. }
  rewrite !take_indices_length by assumption.
  rewrite Ltest, Ltrain, Hmin.
  repeat split; try lia.
  - apply Hall. reflexivity.
  - rewrite !Hpair by assumption. apply Hall.
    rewrite length_combine. fold n. lia.
Qed.

Lemma train_test_split_partitions_witness :
  List.length (snd (fst (fst (train_test_split stump_learner
                                (seq 0 10) (seq 0 10))))) = 2%nat.
Proof.
  destruct (train_test_split stump_learner (seq 0 10) (seq 0 10))
    as [[[X_train X_test] y_train] y_test] eqn:E.
  apply (train_test_split_partitions stump_learner
           (seq 0 10) X_train X_test (seq 0 10) y_train y_test).
  - reflexivity.
  - apply Permutation_refl.
  - exact E.
Defined.

(** X19. Whenever [train_and_predict] returns an accuracy, there were ten
    rows or more; the frame it returns has the rows it was given, a label
    and a prediction for every one of them, and the feature importance is
    there too. *)
Theorem result_has_one_prediction_per_row (sk : sklearn) (entropy : N)
    (df df' : frame) (a : pyfloat) (fi : option importance_dict) :
  train_and_predict sk entropy df = Returned (df', Some a, fi) ->
  (10 <= List.length (rows df))%nat /\
  rows df' = rows df /\
  (exists labels predicted,
     performance_column df' = Some labels /\
     predicted_performance df' = Some predicted /\
     List.length labels = List.length (rows df) /\
     List.length predicted = List.length (rows df)) /\
  fi <> None.
Proof.
  intro E. apply train_and_predict_some in E
    as (Hlen & model & _ & -> & _ & ->).
  split; [exact Hlen |]. split; [reflexivity |]. split; [| discriminate].
  eexists _, _. simpl. repeat split.
  - apply length_map.
  - unfold features_of. rewrite !length_map. reflexivity.
Qed.

Lemma result_has_one_prediction_per_row_witness :
  (10 <= List.length (rows (read_frame ten_high)))%nat.
Proof.
  destruct (train_and_predict stump_learner 0 (read_frame ten_high))
    as [[[df' [a|]] fi]|] eqn:E; try (vm_compute in E; discriminate E).
  apply (result_has_one_prediction_per_row stump_learner 0
           (read_frame ten_high) df' a fi E).
Defined.

(** X20. With fewer than ten students the page never shows predictions,
    whatever the library would do: an empty table gets the
    add-students message, and one to nine students the not-enough-data
    message. *)
Theorem ml_branch_below_ten (sk : sklearn) (entropy : N) (db : database) :
  (List.length (view_students db) < 10)%nat ->
  ml_branch sk entropy db =
    match view_students db with
    | [] => [st_info add_students_first]
    | _ :: _ => [st_info not_enough_data]
    end.
Proof.
  intro Hlen. unfold ml_branch, train_and_predict.
  change (rows (read_frame db)) with (view_students db).
  apply Nat.ltb_lt in Hlen. rewrite Hlen.
  destruct (view_students db); reflexivity.
Qed.

Lemma ml_branch_below_ten_witness :
  ml_branch stump_learner 0 one_student = [st_info not_enough_data].
Proof.
  apply (ml_branch_below_ten stump_learner 0 one_student).
  simpl. lia.
Defined.

Lemma map_fst_combine_map {A B : Type} (f : A -> B) (l : list A) :
  map fst (combine l (map f l)) = l.
Proof.
  induction l as [|x l IH]; simpl; [reflexivity |]. f_equal. exact IH.
Qed.

(** X21. When the accuracy passes the truth test, the page shows the
    accuracy, the feature importance and a prediction table that lists
    every student of the table once, in table order; the at-risk table
    follows exactly when some prediction is Needs Improvement, and holds
    exactly those students. *)
Theorem ml_branch_lists_every_student (sk : sklearn) (entropy : N)
    (db : database) (df' : frame) (a : pyfloat)
    (fi : option importance_dict) :
  train_and_predict sk entropy (read_frame db) = Returned (df', Some a, fi) ->
  accuracy_truthy (Some a) = true ->
  exists importance table,
    fi = Some importance /\
    map fst table = view_students db /\
    ml_branch sk entropy db =
      [st_write_accuracy a; st_json importance; st_predictions table]
      ++ match filter (fun e => label_eqb (snd e) NeedsImprovement) table with
         | [] => []
         | _ :: _ =>
             [st_warning may_need_improvement;
              st_predictions
                (filter (fun e => label_eqb (snd e) NeedsImprovement) table)]
         end.
Proof.
  intros E Ht. pose proof E as E0.
  apply train_and_predict_some in E
    as (Hlen & model & _ & Hdf & _ & Hfi).
  change (rows (read_frame db)) with (view_students db) in *.
  eexists _, (combine (view_students db)
                (map (predict sk model) (features_of (read_frame db)))).
  split; [exact Hfi |]. split.
  - unfold features_of. rewrite map_map.
    change (rows (read_frame db)) with (view_students db).
    apply map_fst_combine_map.
  - unfold ml_branch. rewrite E0, Ht.
    assert (Hne : exists r l, rows (read_frame db) = r :: l).
    { change (rows (read_frame db)) with (view_students db).
      destruct (view_students db) as [|r l]; [simpl in Hlen; lia | eauto]. }
    destruct Hne as (r & l & Hrows). rewrite Hrows, Hfi, Hdf. reflexivity.
Qed.

Lemma ml_branch_lists_every_student_witness :
  exists importance table,
    Some [("Age"%string, Finite 0); ("GPA"%string, Finite 0)] = Some importance /\
    map fst table = view_students ten_high /\
    ml_branch stump_learner 0 ten_high =
      [st_write_accuracy (Finite (2 # 2)); st_json importance;
       st_predictions table]
      ++ match filter (fun e => label_eqb (snd e) NeedsImprovement) table with
         | [] => []
         | _ :: _ =>
             [st_warning may_need_improvement;
              st_predictions
                (filter (fun e => label_eqb (snd e) NeedsImprovement) table)]
         end.
Proof.
  eapply (ml_branch_lists_every_student stump_learner 0 ten_high).
  - vm_compute. reflexivity.
  - reflexivity.
Defined.

(* ================================================================== *)
(** * Analytics & Reports                                              *)
(* ================================================================== *)

Lemma str_eqb_spec (a : str) : forall b : str, str_eqb a b = true <-> a = b.
Proof.
  induction a as [|x a IH]; intros [|y b]; simpl; split; try congruence.
  - intro H. apply andb_true_iff in H as [Hx Hab].
    apply N.eqb_eq in Hx. apply IH in Hab. congruence.
  - intro H. injection H as -> ->.
    rewrite N.eqb_refl. apply IH. reflexivity.
Qed.

Lemma str_ltb_irrefl (a : str) : str_ltb a a = false.
Proof.
  induction a as [|x a IH]; simpl; [reflexivity |].
  rewrite N.ltb_irrefl, N.eqb_refl, IH. reflexivity.
Qed.

Lemma str_ltb_trans (a : str) : forall b c : str,
  str_ltb a b = true -> str_ltb b c = true -> str_ltb a c = true.
Proof.
  induction a as [|x a IH]; intros [|y b] [|z c]; simpl;
    try discriminate; try reflexivity.
  rewrite !orb_true_iff, !andb_true_iff, !N.ltb_lt, !N.eqb_eq.
  intros [Hxy | [-> Hab]] [Hyz | [-> Hbc]].
  - left. lia.
  - left. exact Hxy.
  - left. exact Hyz.
  - right. split; [reflexivity | apply (IH b c); assumption].
Qed.

Lemma beats_irrefl (df : list row) (m : str) : beats df m m = false.
Proof.
  unfold beats. rewrite Nat.ltb_irrefl, str_ltb_irrefl, andb_false_r.
  reflexivity.
Qed.

Lemma beats_trans (df : list row) (x y z : str) :
  beats df x y = true -> beats df y z = true -> beats df x z = true.
Proof.
  unfold beats.
  rewrite !orb_true_iff, !andb_true_iff, !Nat.ltb_lt, !Nat.eqb_eq.
  intros [Hxy | [Exy Sxy]] [Hyz | [Eyz Syz]].
  - left. lia.
  - left. lia.
  - left. lia.
  - right. split; [lia | apply (str_ltb_trans x y z); assumption].
Qed.

(** The entry kept while running over the rows is one of the majors seen,
    and none of them comes before it. *)
Lemma fold_keeps_best (df rest : list row) : forall (seen : list str) (best : str),
  In best seen ->
  (forall m, In m seen -> beats df m best = false) ->
  let top := fold_left
               (fun best r' =>
                  if beats df (row_major r') best then row_major r' else best)
               rest best in
  In top (seen ++ map row_major rest) /\
  (forall m, In m (seen ++ map row_major rest) -> beats df m top = false).
Proof.
  induction rest as [|r rest IH]; intros seen best Hin Hbest; simpl.
  - rewrite app_nil_r. split; assumption.
  - replace (seen ++ row_major r :: map row_major rest)
      with ((seen ++ [row_major r]) ++ map row_major rest)
      by (rewrite <- app_assoc; reflexivity).
    apply IH.
    + destruct (beats df (row_major r) best); rewrite in_app_iff; simpl; auto.
    + intros m Hm. apply in_app_iff in Hm as [Hm | [<- | []]].
      * destruct (beats df (row_major r) best) eqn:E; [| apply Hbest, Hm].
        destruct (beats df m (row_major r)) eqn:E'; [| reflexivity].
        rewrite <- (Hbest m Hm). symmetry.
        apply (beats_trans df m (row_major r) best); assumption.
      * destruct (beats df (row_major r) best) eqn:E;
          [apply beats_irrefl | exact E].
Qed.

(** X22. The top major of the report is, for a non-empty table, the major
    of one of its rows; no major is found in more rows; and of the majors
    found as often it is the first in the order of the code points. So a
    major found strictly more often than every other is the top major. An
    empty table has none. *)
Theorem top_major_is_most_frequent (df : list row) :
  (df = [] -> top_major df = None) /\
  (df <> [] ->
   exists top,
     top_major df = Some top /\
     In top (map row_major df) /\
     (forall m, In m (map row_major df) ->
        (count_major m df <= count_major top df)%nat /\
        (count_major m df = count_major top df -> str_ltb m top = false)) /\
     (forall m0, In m0 (map row_major df) ->
        (forall m, In m (map row_major df) -> m <> m0 ->
                   (count_major m df < count_major m0 df)%nat) ->
        top = m0)).
Proof.
  split; [intros ->; reflexivity |].
  intro Hne. destruct df as [|r rest]; [congruence |].
  remember (r :: rest) as df eqn:Edf.
  set (top := fold_left
                (fun best r' =>
                   if beats df (row_major r') best then row_major r' else best)
                rest (row_major r)).
  assert (Etop : top_major df = Some top) by (subst df; reflexivity).
  exists top. split; [exact Etop |].
  destruct (fold_keeps_best df rest [row_major r] (row_major r))
    as [Hin Hmax].
  { left. reflexivity. }
  { intros m [<- | []]. apply beats_irrefl. }
  cbv zeta in Hin, Hmax. fold top in Hin, Hmax.
  change ([row_major r] ++ map row_major rest)
    with (map row_major (r :: rest)) in Hin, Hmax.
  rewrite <- Edf in Hin, Hmax.
  split; [exact Hin |].
  assert (Hord : forall m, In m (map row_major df) ->
     (count_major m df <= count_major top df)%nat /\
     (count_major m df = count_major top df -> str_ltb m top = false)).
  { intros m Hm. specialize (Hmax m Hm). unfold beats in Hmax.
    apply orb_false_iff in Hmax as [Hlt Heq].
    apply Nat.ltb_ge in Hlt. split; [exact Hlt |].
    intro E. rewrite E, Nat.eqb_refl in Heq. exact Heq. }
  split; [exact Hord |].
  intros m0 Hm0 Hstrict.
  destruct (list_eq_dec N.eq_dec top m0) as [E | E]; [exact E | exfalso].
  pose proof (Hstrict _ Hin E) as H1.
  destruct (Hord m0 Hm0) as [H2 _]. lia.
Qed.

Example top_major_three : top_major three_students = Some (py "CS").
Proof. vm_compute. reflexivity. Qed.
